(** * The preconfirmation bidding loop of [cmd/getPreconf.go]

    A shallow embedding of the Go program: machine integers are [Z] with
    their wrap-around written out, [float64] is the kernel's binary64
    [float], and everything the program does to the outside world (logging,
    sleeping, dialing, subscribing, building transactions, relaying bundles,
    sending bids, reading the clock, seeding the random source) is recorded,
    in order, in a history of effects.  The outside world answers each call
    as a function of the history so far.  A log record is its level and its
    message; the key-value context of the record is left out. *)

From Stdlib Require Import ZArith List String Ascii Bool Lia.
From Stdlib Require Import Decimal DecimalString DecimalZ.
From Stdlib Require Import PrimFloat Uint63 FloatOps SpecFloat FloatAxioms.
Import ListNotations.

#[local] Set Warnings "-inexact-float".
#[local] Open Scope string_scope.
#[local] Open Scope list_scope.
#[local] Open Scope Z_scope.

(** ** Machine integers *)

Module Int.

Definition max_int64 : Z := 2 ^ 63 - 1.
Definition min_int64 : Z := - 2 ^ 63.
Definition max_uint64 : Z := 2 ^ 64 - 1.

(** Conversion to [uint64]: the value modulo 2^64. *)
Definition wrap_uint64 (z : Z) : Z := z mod 2 ^ 64.

(** Conversion to [int64]: two's complement. *)
Definition wrap_int64 (z : Z) : Z := (z + 2 ^ 63) mod 2 ^ 64 - 2 ^ 63.

Definition in_int64 (z : Z) : Prop := min_int64 <= z <= max_int64.
Definition in_uint64 (z : Z) : Prop := 0 <= z <= max_uint64.

Lemma wrap_int64_small z : in_int64 z -> wrap_int64 z = z.
Proof.
  unfold in_int64, min_int64, max_int64, wrap_int64. intros H.
  rewrite Z.mod_small; lia.
Qed.

Lemma wrap_uint64_small z : in_uint64 z -> wrap_uint64 z = z.
Proof.
  unfold in_uint64, max_uint64, wrap_uint64. intros H.
  apply Z.mod_small; lia.
Qed.

(** [float64] to [int64]: truncation toward zero.  Outside the range of
    [int64] (and for NaN) Go leaves the result to the implementation; the
    value taken here is the one amd64 produces. *)
Definition trunc_float (x : float) : Z :=
  let '(m, e) := PrimFloat.frshiftexp (PrimFloat.abs x) in
  let mant := Uint63.to_Z (PrimFloat.normfr_mantissa m) in
  let ex := Uint63.to_Z e - FloatOps.shift - 53 in
  let mag := if 0 <=? ex then mant * 2 ^ ex else mant / 2 ^ (- ex) in
  if PrimFloat.ltb x 0%float then - mag else mag.

Definition float64_to_int64 (x : float) : Z :=
  if PrimFloat.ltb (PrimFloat.abs x) 0x1p63%float
  then trunc_float x
  else min_int64.

End Int.

(** ** [strconv], [strings] and [fmt] as the program uses them *)

Module Strconv.

(** [strconv.ParseBool]. *)
Definition ParseBool (s : string) : option bool :=
  if existsb (String.eqb s) ["1"; "t"; "T"; "TRUE"; "true"; "True"]
  then Some true
  else if existsb (String.eqb s) ["0"; "f"; "F"; "FALSE"; "false"; "False"]
  then Some false
  else None.

(** [strconv.ParseUint(s, 10, 64)]: decimal digits only, no sign, not
    empty, at most 2^64 - 1. *)
Definition ParseUint (s : string) : option Z :=
  match NilEmpty.uint_of_string s with
  | Some Nil => None
  | Some u =>
      let z := Z.of_N (N.of_uint u) in
      if z <=? Int.max_uint64 then Some z else None
  | None => None
  end.

(** [fmt.Sprintf("%d", n)]. *)
Definition FormatInt (n : Z) : string :=
  NilZero.string_of_int (Z.to_int n).

(** [strings.TrimPrefix]. *)
Definition TrimPrefix (s pre : string) : string :=
  if String.prefix pre s
  then String.substring (String.length pre)
         (String.length s - String.length pre)%nat s
  else s.

End Strconv.

(** ** Data *)

(** A non-nil Go [error], by its message; the [error] interface is
    [option error] with [None] for [nil]. *)
Definition error := string.

(** [*types.Transaction] is [option Transaction], [None] for the nil
    pointer.  [txHashHex] is what [Hash().String()] prints. *)
Record Transaction := mkTransaction {
  txHashHex : string;
  txPayload : string
}.

(** [*types.Header] as the loop reads it. *)
Record Header := mkHeader {
  Number : Z;
  Time : Z;
  headerHash : string
}.

Definition Client := nat.
Definition Subscription := nat.
Definition AuthAcct := string.

(** The dynamic type of the [interface{}] argument of [sendPreconfBid]. *)
Inductive Input :=
| InString (v : string)
| InTransaction (v : option Transaction)
| InOther.

(** The first argument of [SendBid]: [[]string] or [[]*types.Transaction]. *)
Inductive Reference :=
| HashReference (hashes : list string)
| PayloadReference (txs : list Transaction).

Record Bid := mkBid {
  bidReference : Reference;
  bidAmount : string;
  bidBlockNumber : Z;
  bidDecayStart : Z;
  bidDecayEnd : Z
}.

(** What the [select] of the main loop can deliver. *)
Inductive Event :=
| TimerFired
| SubscriptionError (e : option error)
| NewHeader (h : Header).

Inductive Level := LvlInfo | LvlWarn | LvlError | LvlCrit.

(** ** Effects and the outside world *)

Inductive Effect :=
| Log (lvl : Level) (msg : string)
| OsExit (code : Z)
| Sleep (d : Z)
| TimeNow
| RandSeed (seed : Z)
| RandFloat64
| GodotenvLoad
| AuthenticateAddress
| NewBidderClient (addr : string)
| DialContext (endpoint : string) (timeout : Z)
| NewGethClient (endpoint : string)
| SubscribeNewHead (c : Client)
| SelfETHTransfer (c : option Client) (amount offset : Z)
| ExecuteBlobTransaction (c : option Client) (numBlobs offset : Z)
| SendBundle (endpoint : string) (tx : option Transaction) (blockNumber : Z)
| SendBid (b : Bid)
| NewTimer (d : Z)
| Select (ev : Event).

Definition History := list Effect.

(** The effects that go over the network. *)
Definition is_network (e : Effect) : bool :=
  match e with
  | NewBidderClient _ | DialContext _ _ | NewGethClient _
  | SubscribeNewHead _ | SelfETHTransfer _ _ _
  | ExecuteBlobTransaction _ _ _ | SendBundle _ _ _ | SendBid _ => true
  | _ => false
  end.

Definition is_DialContext (e : Effect) : bool :=
  match e with DialContext _ _ => true | _ => false end.

Definition is_SubscribeNewHead (e : Effect) : bool :=
  match e with SubscribeNewHead _ => true | _ => false end.

Definition is_build (e : Effect) : bool :=
  match e with
  | SelfETHTransfer _ _ _ | ExecuteBlobTransaction _ _ _ => true
  | _ => false
  end.

(** The bids of a history, the block numbers handed to the bundle relay,
    the durations slept and the seeds given to the random source, in the
    order they occurred. *)
Definition bids_of (h : History) : list Bid :=
  flat_map (fun e => match e with SendBid b => [b] | _ => [] end) h.

Definition bundles_of (h : History) : list (option Transaction * Z) :=
  flat_map (fun e => match e with
                     | SendBundle _ tx n => [(tx, n)]
                     | _ => []
                     end) h.

Definition sleeps_of (h : History) : list Z :=
  flat_map (fun e => match e with Sleep d => [d] | _ => [] end) h.

Definition seeds_of (h : History) : list Z :=
  flat_map (fun e => match e with RandSeed s => [s] | _ => [] end) h.

Definition count (p : Effect -> bool) (h : History) : nat :=
  List.length (filter p h).

(** The result of an external call that may itself panic. *)
Inductive ExtRes (A : Type) :=
| Returns (a : A)
| Panics (msg : string).
Arguments Returns {A} a.
Arguments Panics {A} msg.

Definition BuildResult : Type := option Transaction * Z * option error.

(** The outside world: the environment after [godotenv.Load], and the
    answer of every collaborator to every call, given all that happened
    before the call. *)
Record World := mkWorld {
  dotenv : option error;
  getenv : string -> string;
  authenticate : string -> AuthAcct * option error;
  newBidderClient : History -> string -> option error;
  dialContext : History -> string -> Z -> Client + error;
  newGethClient : History -> string -> Client + error;
  subscribeNewHead : History -> Client -> Subscription + error;
  selfETHTransfer :
    History -> option Client -> AuthAcct -> Z -> Z -> BuildResult;
  executeBlobTransaction :
    History -> option Client -> AuthAcct -> Z -> Z -> BuildResult;
  sendBundle :
    History -> string -> option Transaction -> Z -> ExtRes (option error);
  sendBid : History -> Bid -> option error;
  now : History -> Z;
  seedState : Z -> Z;
  nextFloat64 : Z -> float * Z
}.

(** ** The monad of the program: state, exit, panic *)

Record State := mkState {
  history : History;
  rng : Z
}.

Inductive Res (A : Type) :=
| Ret (a : A)
| Exited (code : Z)
| Panicked (msg : string)
| OutOfFuel.
Arguments Ret {A} a.
Arguments Exited {A} code.
Arguments Panicked {A} msg.
Arguments OutOfFuel {A}.

Definition M (A : Type) : Type := State -> Res A * State.

Definition ret {A} (a : A) : M A := fun s => (Ret a, s).

Definition bind {A B} (m : M A) (k : A -> M B) : M B :=
  fun s =>
    match m s with
    | (Ret a, s') => k a s'
    | (Exited c, s') => (Exited c, s')
    | (Panicked msg, s') => (Panicked msg, s')
    | (OutOfFuel, s') => (OutOfFuel, s')
    end.

Declare Scope go_scope.
Delimit Scope go_scope with go.
Notation "x <- m ;; k" := (bind m (fun x => k))
  (at level 61, m at next level, right associativity) : go_scope.
Notation "' p <- m ;; k" := (bind m (fun x => let p := x in k))
  (at level 61, p pattern, m at next level, right associativity) : go_scope.
Notation "m ;; k" := (bind m (fun _ => k))
  (at level 61, right associativity) : go_scope.
#[local] Open Scope go_scope.

Definition emit (e : Effect) : M unit :=
  fun s => (Ret tt, mkState (history s ++ [e]) (rng s)).

Definition ask {A} (q : History -> A) : M A :=
  fun s => (Ret (q (history s)), s).

Definition panic {A} (msg : string) : M A :=
  fun s => (Panicked msg, s).

Definition outOfFuel {A} : M A :=
  fun s => (OutOfFuel, s).

(** [os.Exit]. *)
Definition osExit {A} (code : Z) : M A :=
  fun s => (Exited code, mkState (history s ++ [OsExit code]) (rng s)).

Definition when (b : bool) (m : M unit) : M unit :=
  if b then m else ret tt.

Definition isNil {A} (o : option A) : bool :=
  match o with None => true | Some _ => false end.

Definition notNil {A} (o : option A) : bool := negb (isNil o).

(** The initial state: nothing has happened; the global random source of
    [x/exp/rand] starts from seed 1. *)
Definition initial (W : World) : State := mkState [] (seedState W 1).

(** Durations are nanoseconds, as [time.Duration]. *)
Definition Millisecond : Z := 1000000.
Definition Second : Z := 1000000000.
Definition Hour : Z := 3600 * Second.

(** [t.UnixNano()] and [t.UnixMilli()] of an instant given in nanoseconds
    since the epoch. *)
Definition UnixNano (t : Z) : Z := Int.wrap_int64 t.
Definition UnixMilli (t : Z) : Z := Int.wrap_int64 (t / Millisecond).

(** [math.Pow(2, float64(i))] converted to [time.Duration]: exact up to
    2^62, out of the range of [int64] from 2^63 on. *)
Definition pow2Duration (i : Z) : Z :=
  if i <? 0 then 0
  else if i <=? 62 then 2 ^ i
  else Int.min_int64.

Definition NUM_BLOBS : Z := 6.

(** ** The program *)

Section Program.

Variable W : World.

(** *** Primitive calls *)

Definition logInfo (msg : string) : M unit := emit (Log LvlInfo msg).
Definition logWarn (msg : string) : M unit := emit (Log LvlWarn msg).
Definition logError (msg : string) : M unit := emit (Log LvlError msg).

(** [log.Crit] writes the record and calls [os.Exit(1)]. *)
Definition logCrit (msg : string) : M unit :=
  emit (Log LvlCrit msg) ;; osExit 1.

Definition timeSleep (d : Z) : M unit := emit (Sleep d).

Definition timeNow : M Z :=
  t <- ask (now W) ;; emit TimeNow ;; ret t.

Definition randSeed (seed : Z) : M unit :=
  fun s => (Ret tt, mkState (history s ++ [RandSeed seed]) (seedState W seed)).

Definition randFloat64 : M float :=
  fun s =>
    let '(f, r) := nextFloat64 W (rng s) in
    (Ret f, mkState (history s ++ [RandFloat64]) r).

Definition call {A} (q : History -> A) (e : Effect) : M A :=
  r <- ask q ;; emit e ;; ret r.

Definition callExt {A} (q : History -> ExtRes A) (e : Effect) : M A :=
  r <- call q e ;;
  match r with
  | Returns a => ret a
  | Panics msg => panic msg
  end.

(** [tx.Hash().String()]: a nil pointer dereference on the nil
    transaction. *)
Definition hashString (tx : option Transaction) : M string :=
  match tx with
  | Some t => ret (txHashHex t)
  | None => panic "invalid memory address or nil pointer dereference"
  end.

(** *** [connectRPCClientWithRetries] *)

Fixpoint connectRPCLoop (remaining : nat) (i : Z) (rpcEndpoint : string)
    (timeout : Z) : M (option Client) :=
  match remaining with
  | O =>
      logError "failed to connect to RPC client after retries" ;;
      ret None
  | S remaining' =>
      r <- call (fun h => dialContext W h rpcEndpoint timeout)
             (DialContext rpcEndpoint timeout) ;;
      match r with
      | inl rpcClient => ret (Some rpcClient)
      | inr _ =>
          logWarn "failed to connect to RPC client, retrying..." ;;
          timeSleep (Int.wrap_int64 (10 * pow2Duration i)) ;;
          connectRPCLoop remaining' (i + 1) rpcEndpoint timeout
      end
  end.

Definition connectRPCClientWithRetries (rpcEndpoint : string)
    (maxRetries : Z) (timeout : Z) : M (option Client) :=
  connectRPCLoop (Z.to_nat maxRetries) 0 rpcEndpoint timeout.

(** *** [connectWSClient]: the loop has no bound, [fuel] bounds the model *)

Fixpoint connectWSClient (fuel : nat) (wsEndpoint : string)
    : M (option Client * option error) :=
  match fuel with
  | O => outOfFuel
  | S fuel' =>
      r <- call (fun h => newGethClient W h wsEndpoint)
             (NewGethClient wsEndpoint) ;;
      match r with
      | inl wsClient => ret (Some wsClient, None)
      | inr _ =>
          logWarn "failed to connect to websocket client" ;;
          timeSleep (10 * Second) ;;
          connectWSClient fuel' wsEndpoint
      end
  end.

(** [wsClient.SubscribeNewHead]; the client is never nil where the
    program calls it. *)
Definition subscribe (wsClient : option Client)
    : M (Subscription + error) :=
  match wsClient with
  | Some c => call (fun h => subscribeNewHead W h c) (SubscribeNewHead c)
  | None => panic "invalid memory address or nil pointer dereference"
  end.

(** *** [reconnectWSClient] *)

Fixpoint reconnectLoop (fuel : nat) (remaining : nat) (wsEndpoint : string)
    : M (option Client * option Subscription) :=
  match remaining with
  | O =>
      logCrit "failed to reconnect WebSocket client after retries" ;;
      ret (None, None)
  | S remaining' =>
      '(wsClient, err) <- connectWSClient fuel wsEndpoint ;;
      early <-
        (if isNil err then
           logInfo "(ws) geth client reconnected" ;;
           r <- subscribe wsClient ;;
           match r with
           | inl sub => ret (Some (wsClient, Some sub))
           | inr _ => ret None
           end
         else ret None) ;;
      match early with
      | Some result => ret result
      | None =>
          logWarn "failed to reconnect WebSocket client, retrying..." ;;
          timeSleep (5 * Second) ;;
          reconnectLoop fuel remaining' wsEndpoint
      end
  end.

Definition reconnectWSClient (fuel : nat) (wsEndpoint : string)
    : M (option Client * option Subscription) :=
  reconnectLoop fuel 10 wsEndpoint.

(** *** [sendPreconfBid] *)

Definition minAmount : float := 0.0002%float.
Definition maxAmount : float := 0.001%float.

Definition sendPreconfBid (input : Input) (blockNumber : Z) : M unit :=
  t0 <- timeNow ;;
  randSeed (Int.wrap_uint64 (UnixNano t0)) ;;
  f <- randFloat64 ;;
  let randomEthAmount := (minAmount + f * (maxAmount - minAmount))%float in
  let randomWeiAmount := Int.float64_to_int64 (randomEthAmount * 1e18)%float in
  let amount := Strconv.FormatInt randomWeiAmount in
  t1 <- timeNow ;;
  let currentTime := UnixMilli t1 in
  let decayStart := currentTime in
  let decayEnd := Int.wrap_int64 (currentTime + 36 * Second / Millisecond) in
  err <-
    match input with
    | InString v =>
        let txHash := Strconv.TrimPrefix v "0x" in
        logInfo "sending bid with transaction hash" ;;
        e <- (let b := mkBid (HashReference [txHash]) amount blockNumber
                         decayStart decayEnd in
              call (fun h => sendBid W h b) (SendBid b)) ;;
        ret (Some e)
    | InTransaction v =>
        _ <- hashString v ;;
        logInfo "sending bid with tx payload" ;;
        match v with
        | Some tx =>
            e <- (let b := mkBid (PayloadReference [tx]) amount blockNumber
                             decayStart decayEnd in
                  call (fun h => sendBid W h b) (SendBid b)) ;;
            ret (Some e)
        | None => panic "invalid memory address or nil pointer dereference"
        end
    | InOther =>
        logWarn "unsupported input type, must be string or *types.Transaction" ;;
        ret None
    end ;;
  match err with
  | None => ret tt
  | Some (Some _) => logWarn "failed to send bid"
  | Some None => logInfo "sent preconfirmation bid"
  end.

(** *** [parseBoolEnvVar], [parseUintEnvVar] *)

Definition parseBoolEnvVar (name value : string) : bool * option error :=
  match Strconv.ParseBool value with
  | Some parsedValue => (parsedValue, None)
  | None =>
      (false,
       Some ("environment variable " ++ name
             ++ " must be true or false, got '" ++ value ++ "'")%string)
  end.

Definition parseUintEnvVar (name value : string) : Z * option error :=
  match Strconv.ParseUint value with
  | Some parsedValue => (parsedValue, None)
  | None =>
      (0,
       Some ("environment variable " ++ name
             ++ " must be a positive integer, got '" ++ value ++ "'")%string)
  end.

(** *** [main] *)

(** The variables of [main] that the loop reads and never assigns. *)
Record Config := mkConfig {
  usePayload : bool;
  rpcEndpoint : string;
  wsEndpoint : string;
  offset : Z;
  ethTransfer : string;
  blob : string;
  authAcct : AuthAcct
}.

(** The variables of [main] that the loop assigns. *)
Record Vars := mkVars {
  wsClient : option Client;
  sub : option Subscription;
  err : option error
}.

(** The body of [case header := <-headers], first part: the transaction
    of the configured mode.  With no mode configured nothing is built:
    [signedTx] and [blockNumber] keep their zero values and [err] the
    value it had. *)
Definition buildTransaction (cfg : Config) (v : Vars) : M BuildResult :=
  let amount := 1000000000000000 in
  if String.eqb (ethTransfer cfg) "true" then
    call (fun h => selfETHTransfer W h (wsClient v) (authAcct cfg)
                     amount (offset cfg))
         (SelfETHTransfer (wsClient v) amount (offset cfg))
  else if String.eqb (blob cfg) "true" then
    call (fun h => executeBlobTransaction W h (wsClient v) (authAcct cfg)
                     NUM_BLOBS (offset cfg))
         (ExecuteBlobTransaction (wsClient v) NUM_BLOBS (offset cfg))
  else ret (None, 0, err v).

(** Second part: the checks, the log of the head, and the bid.  The
    result is the value [err] has when the iteration ends. *)
Definition bidTransaction (cfg : Config) (built : BuildResult)
    : M (option error) :=
  let '(signedTx, blockNumber, err1) := built in
  (if isNil signedTx
   then logError "Transaction was not signed or created."
   else logInfo "Transaction sent successfully") ;;
  when (notNil err1) (logError "failed to execute transaction") ;;
  logInfo "new block received" ;;
  err2 <-
    (if usePayload cfg then
       sendPreconfBid (InTransaction signedTx) (Int.wrap_int64 blockNumber) ;;
       ret err1
     else
       e <- callExt (fun h => sendBundle W h (rpcEndpoint cfg) signedTx
                                blockNumber)
              (SendBundle (rpcEndpoint cfg) signedTx blockNumber) ;;
       when (notNil e) (logError "Failed to send transaction") ;;
       hash <- hashString signedTx ;;
       sendPreconfBid (InString hash) (Int.wrap_int64 blockNumber) ;;
       ret e) ;;
  when (notNil err2) (logError "failed to execute blob tx") ;;
  ret err2.

Definition handleHeader (cfg : Config) (v : Vars) (header : Header)
    : M Vars :=
  built <- buildTransaction cfg v ;;
  err2 <- bidTransaction cfg built ;;
  ret (mkVars (wsClient v) (sub v) err2).

Inductive MainOutcome :=
| Returned
| AwaitingEvents.

(** The [for { select { ... } }] of [main], run on the events the
    [select] delivers. *)
Fixpoint mainLoop (fuel : nat) (cfg : Config) (v : Vars)
    (events : list Event) : M MainOutcome :=
  match events with
  | [] => ret AwaitingEvents
  | ev :: events' =>
      emit (Select ev) ;;
      match ev with
      | TimerFired =>
          logInfo "Stopping the loop." ;;
          ret Returned
      | SubscriptionError _ =>
          logWarn "subscription error" ;;
          '(c, s) <- reconnectWSClient fuel (wsEndpoint cfg) ;;
          mainLoop fuel cfg (mkVars c s (err v)) events'
      | NewHeader header =>
          v' <- handleHeader cfg v header ;;
          mainLoop fuel cfg v' events'
      end
  end.

(** The step of [main] that connects to the RPC client, only if
    [usePayload] is false. *)
Definition connectRPC (usePayload : bool) (rpcEndpoint : string)
    (timeout : Z) : M unit :=
  when (negb usePayload)
    (client <- connectRPCClientWithRetries rpcEndpoint 5 timeout ;;
     when (isNil client) (logError "failed to connect to RPC client") ;;
     logInfo "(rpc) geth client connected").

(** What [main] reads from the environment, under the names of the
    variables. *)
Record Environment := mkEnvironment {
  BIDDER_ADDRESS : string;
  USE_PAYLOAD : bool;
  RPC_ENDPOINT : string;
  WS_ENDPOINT : string;
  PRIVATE_KEY : string;
  OFFSET : Z;
  ETH_TRANSFER : string;
  BLOB : string
}.

(** [main] up to the validation of the mode flags: the [.env] file, the
    variables with their defaults, and the fatal checks, in the order of the
    source. *)
Definition readConfiguration : M Environment :=
  err <- call (fun _ => dotenv W) GodotenvLoad ;;
  when (notNil err) (logCrit "Error loading .env file") ;;
  let bidderAddress :=
    if String.eqb (getenv W "BIDDER_ADDRESS") ""
    then "mev-commit-bidder:13524"
    else getenv W "BIDDER_ADDRESS" in
  let usePayloadEnv := getenv W "USE_PAYLOAD" in
  usePayload <-
    (if negb (String.eqb usePayloadEnv "") then
       let '(parsed, err) := parseBoolEnvVar "USE_PAYLOAD" usePayloadEnv in
       when (notNil err) (logCrit "Invalid USE_PAYLOAD value") ;;
       ret parsed
     else ret true) ;;
  rpcEndpoint <-
    (if negb usePayload then
       let rpcEndpoint := getenv W "RPC_ENDPOINT" in
       when (String.eqb rpcEndpoint "")
         (logCrit "RPC_ENDPOINT environment variable is required when USE_PAYLOAD is false") ;;
       ret rpcEndpoint
     else ret "") ;;
  let wsEndpoint := getenv W "WS_ENDPOINT" in
  when (String.eqb wsEndpoint "")
    (logCrit "WS_ENDPOINT environment variable is required") ;;
  let privateKeyHex := getenv W "PRIVATE_KEY" in
  when (String.eqb privateKeyHex "")
    (logCrit "PRIVATE_KEY environment variable is required") ;;
  let offsetEnv := getenv W "OFFSET" in
  offset <-
    (if negb (String.eqb offsetEnv "") then
       let '(parsed, err) := parseUintEnvVar "OFFSET" offsetEnv in
       when (notNil err) (logCrit "Invalid OFFSET value") ;;
       ret parsed
     else ret 1) ;;
  let ethTransfer := getenv W "ETH_TRANSFER" in
  let blob := getenv W "BLOB" in
  when (String.eqb ethTransfer "true" && String.eqb blob "true")
    (logCrit "Only one of --ethtransfer or --blob can be set at a time") ;;
  ret (mkEnvironment bidderAddress usePayload rpcEndpoint wsEndpoint
         privateKeyHex offset ethTransfer blob).

Definition main (fuel : nat) (events : list Event) : M MainOutcome :=
  env <- readConfiguration ;;
  logInfo "Configuration values" ;;
  '(authAcct, err) <- call (fun _ => authenticate W (PRIVATE_KEY env))
                        AuthenticateAddress ;;
  when (notNil err) (logCrit "Failed to authenticate private key:") ;;
  err <- call (fun h => newBidderClient W h (BIDDER_ADDRESS env))
           (NewBidderClient (BIDDER_ADDRESS env)) ;;
  when (notNil err) (logCrit "failed to connect to mev-commit bidder API") ;;
  logInfo "connected to mev-commit client" ;;
  let timeout := 30 * Second in
  connectRPC (USE_PAYLOAD env) (RPC_ENDPOINT env) timeout ;;
  '(wsClient, err) <- connectWSClient fuel (WS_ENDPOINT env) ;;
  when (notNil err) (logCrit "failed to connect to geth client") ;;
  logInfo "(ws) geth client connected" ;;
  r <- subscribe wsClient ;;
  '(sub, err) <-
    match r with
    | inl sub => ret (Some sub, None)
    | inr e =>
        logCrit "failed to subscribe to new blocks" ;;
        ret (None, Some e)
    end ;;
  emit (NewTimer (24 * 14 * Hour)) ;;
  mainLoop fuel
    (mkConfig (USE_PAYLOAD env) (RPC_ENDPOINT env) (WS_ENDPOINT env)
       (OFFSET env) (ETH_TRANSFER env) (BLOB env) authAcct)
    (mkVars wsClient sub err) events.

End Program.

(** ** The history only grows *)

(** [emits P m]: whatever [m] adds to the history satisfies [P]. *)
Definition emits {A} (P : Effect -> Prop) (m : M A) : Prop :=
  forall s, exists d, history (snd (m s)) = history s ++ d /\ Forall P d.

Section Emits.

Context (P : Effect -> Prop).

Lemma emits_ret {A} (a : A) : emits P (ret a).
Proof. intros s. exists []. cbn. rewrite app_nil_r. auto. Qed.

Lemma emits_panic {A} msg : emits P (@panic A msg).
Proof. intros s. exists []. cbn. rewrite app_nil_r. auto. Qed.

Lemma emits_outOfFuel {A} : emits P (@outOfFuel A).
Proof. intros s. exists []. cbn. rewrite app_nil_r. auto. Qed.

Lemma emits_ask {A} (q : History -> A) : emits P (ask q).
Proof. intros s. exists []. cbn. rewrite app_nil_r. auto. Qed.

Lemma emits_emit e : P e -> emits P (emit e).
Proof. intros H s. exists [e]. cbn. auto. Qed.

Lemma emits_osExit {A} c : P (OsExit c) -> emits P (@osExit A c).
Proof. intros H s. exists [OsExit c]. cbn. auto. Qed.

Lemma emits_bind {A B} (m : M A) (k : A -> M B) :
  emits P m -> (forall a, emits P (k a)) -> emits P (bind m k).
Proof.
  intros Hm Hk s. unfold bind.
  destruct (Hm s) as (d1 & E1 & F1).
  destruct (m s) as [[a|c|msg|] s1] eqn:Em; cbn in E1;
    try solve [exists d1; cbn; auto].
  destruct (Hk a s1) as (d2 & E2 & F2).
  exists (d1 ++ d2). rewrite E2, E1, app_assoc. split; auto.
  apply Forall_app; auto.
Qed.

Lemma emits_when b (m : M unit) : emits P m -> emits P (when b m).
Proof. destruct b; cbn; auto using emits_ret. Qed.

Lemma emits_call {A} (q : History -> A) e : P e -> emits P (call q e).
Proof.
  intros H. unfold call.
  repeat (apply emits_bind; intros);
    auto using emits_ask, emits_emit, emits_ret.
Qed.

Lemma emits_callExt {A} (q : History -> ExtRes A) e :
  P e -> emits P (callExt q e).
Proof.
  intros H. unfold callExt. apply emits_bind; auto using emits_call.
  intros [a|msg]; auto using emits_ret, emits_panic.
Qed.

End Emits.

Lemma emits_weaken {A} (P Q : Effect -> Prop) (m : M A) :
  (forall e, P e -> Q e) -> emits P m -> emits Q m.
Proof.
  intros H Hm s. destruct (Hm s) as (d & E & F). exists d. split; auto.
  eapply Forall_impl; eauto.
Qed.

Lemma count_app p (h1 h2 : History) :
  count p (h1 ++ h2) = (count p h1 + count p h2)%nat.
Proof. unfold count. now rewrite filter_app, length_app. Qed.

Lemma count_none p (d : History) :
  Forall (fun e => p e = false) d -> count p d = 0%nat.
Proof.
  unfold count. induction 1 as [|e d He _ IH]; cbn; auto. now rewrite He.
Qed.

Lemma bids_of_app h1 h2 : bids_of (h1 ++ h2) = bids_of h1 ++ bids_of h2.
Proof. unfold bids_of. apply flat_map_app. Qed.

Lemma sleeps_of_app h1 h2 : sleeps_of (h1 ++ h2) = sleeps_of h1 ++ sleeps_of h2.
Proof. unfold sleeps_of. apply flat_map_app. Qed.

Lemma seeds_of_app h1 h2 : seeds_of (h1 ++ h2) = seeds_of h1 ++ seeds_of h2.
Proof. unfold seeds_of. apply flat_map_app. Qed.

(** ** What one call of [sendPreconfBid] does *)

Section BidTrace.

Variable W : World.

(** The seed taken from the clock when the call begins. *)
Definition seedAt (s : State) : Z :=
  Int.wrap_uint64 (UnixNano (now W (history s))).

(** Clock, seed, draw, clock: the effects before the type switch. *)
Definition preamble (s : State) : History :=
  [TimeNow; RandSeed (seedAt s); RandFloat64; TimeNow].

Definition drawAt (s : State) : float * Z :=
  nextFloat64 W (seedState W (seedAt s)).

Definition amountAt (s : State) : string :=
  Strconv.FormatInt
    (Int.float64_to_int64
       ((minAmount + fst (drawAt s) * (maxAmount - minAmount)) * 1e18)%float).

Definition decayStartAt (s : State) : Z :=
  UnixMilli (now W (history s ++ [TimeNow; RandSeed (seedAt s); RandFloat64])).

Definition bidAt (s : State) (r : Reference) (blockNumber : Z) : Bid :=
  mkBid r (amountAt s) blockNumber (decayStartAt s)
    (Int.wrap_int64 (decayStartAt s + 36000)).

Definition bidLog (e : option error) : Effect :=
  match e with
  | Some _ => Log LvlWarn "failed to send bid"
  | None => Log LvlInfo "sent preconfirmation bid"
  end.

Definition submitted (s : State) (intro : string) (b : Bid) : History :=
  preamble s ++
  [Log LvlInfo intro; SendBid b;
   bidLog (sendBid W (history s ++ preamble s ++ [Log LvlInfo intro]) b)].

Lemma sendPreconfBid_string v blockNumber s :
  sendPreconfBid W (InString v) blockNumber s =
  (Ret tt,
   mkState
     (history s ++
      submitted s "sending bid with transaction hash"
        (bidAt s (HashReference [Strconv.TrimPrefix v "0x"]) blockNumber))
     (snd (drawAt s))).
Proof.
  unfold sendPreconfBid, submitted, bidAt, amountAt, decayStartAt, drawAt,
    preamble, logInfo, logWarn, bind, timeNow, call, ask, emit, randSeed,
    randFloat64, ret, seedAt.
  cbn. destruct (nextFloat64 W _) as [f r]. cbn.
  rewrite <- !app_assoc. cbn.
  match goal with
  | |- context [sendBid W ?h ?b] => destruct (sendBid W h b)
  end; cbn; rewrite <- ?app_assoc; reflexivity.
Qed.

Lemma sendPreconfBid_payload tx blockNumber s :
  sendPreconfBid W (InTransaction (Some tx)) blockNumber s =
  (Ret tt,
   mkState
     (history s ++
      submitted s "sending bid with tx payload"
        (bidAt s (PayloadReference [tx]) blockNumber))
     (snd (drawAt s))).
Proof.
  unfold sendPreconfBid, submitted, bidAt, amountAt, decayStartAt, drawAt,
    preamble, logInfo, logWarn, hashString, bind, timeNow, call, ask, emit,
    randSeed, randFloat64, ret, seedAt.
  cbn. destruct (nextFloat64 W _) as [f r]. cbn.
  rewrite <- !app_assoc. cbn.
  match goal with
  | |- context [sendBid W ?h ?b] => destruct (sendBid W h b)
  end; cbn; rewrite <- ?app_assoc; reflexivity.
Qed.

Lemma sendPreconfBid_nil blockNumber s :
  sendPreconfBid W (InTransaction None) blockNumber s =
  (Panicked "invalid memory address or nil pointer dereference",
   mkState (history s ++ preamble s) (snd (drawAt s))).
Proof.
  unfold sendPreconfBid, drawAt, preamble, bind, timeNow, call, ask, emit,
    randSeed, randFloat64, ret, seedAt, hashString, panic.
  cbn. destruct (nextFloat64 W _) as [f r]. cbn.
  rewrite <- !app_assoc. reflexivity.
Qed.

Lemma sendPreconfBid_other blockNumber s :
  sendPreconfBid W InOther blockNumber s =
  (Ret tt,
   mkState
     (history s ++ preamble s ++
      [Log LvlWarn
         "unsupported input type, must be string or *types.Transaction"])
     (snd (drawAt s))).
Proof.
  unfold sendPreconfBid, drawAt, preamble, logWarn, bind, timeNow, call,
    ask, emit, randSeed, randFloat64, ret, seedAt.
  cbn. destruct (nextFloat64 W _) as [f r]. cbn.
  rewrite <- !app_assoc. reflexivity.
Qed.

Lemma bids_of_submitted s intro b : bids_of (submitted s intro b) = [b].
Proof.
  unfold submitted, preamble, bidLog. rewrite bids_of_app. cbn.
  now destruct (sendBid W _ b).
Qed.

Lemma seeds_of_submitted s intro b :
  seeds_of (submitted s intro b) = [seedAt s].
Proof.
  unfold submitted, preamble, bidLog. rewrite seeds_of_app. cbn.
  now destruct (sendBid W _ b).
Qed.

End BidTrace.

Arguments sendPreconfBid : simpl never.
Arguments submitted : simpl never.

(** ** [strings.TrimPrefix] on the ["0x"] prefix *)

Lemma substring_all (r : string) : String.substring 0 (String.length r) r = r.
Proof. induction r as [|c r IH]; cbn; congruence. Qed.

Lemma TrimPrefix_0x_present (r : string) :
  Strconv.TrimPrefix ("0x" ++ r) "0x" = r.
Proof.
  unfold Strconv.TrimPrefix. cbn.
  destruct (ascii_dec "0" "0") as [_|N]; [|congruence].
  destruct (ascii_dec "x" "x") as [_|N]; [|congruence].
  destruct r; cbn; [reflexivity|].
  now rewrite substring_all.
Qed.

Lemma TrimPrefix_0x_absent (v : string) :
  String.prefix "0x" v = false -> Strconv.TrimPrefix v "0x" = v.
Proof. unfold Strconv.TrimPrefix. now intros ->. Qed.

(** ** Reference dispatch *)

Definition unsupportedWarning : Effect :=
  Log LvlWarn "unsupported input type, must be string or *types.Transaction".

Definition nilDereference : string :=
  "invalid memory address or nil pointer dereference".

(** C4, amended.  [sendPreconfBid] dispatches on the dynamic type of its
    reference.  A string is submitted as a hash with a leading "0x" removed
    when present and as it is otherwise; a transaction that is not nil is
    submitted as the payload, as it is; any other type makes the call log
    the unsupported-type warning and return, with no bid and no network
    call at all.  The nil transaction is of the payload type: there the call
    panics on the nil pointer, with no bid, no network call and no
    warning. *)
Theorem sendPreconfBid_dispatch (W : World) (s : State) (blockNumber : Z) :
  (forall v, exists d,
      history (snd (sendPreconfBid W (InString v) blockNumber s))
        = history s ++ d /\
      map bidReference (bids_of d)
        = [HashReference [Strconv.TrimPrefix v "0x"]]) /\
  (forall r, Strconv.TrimPrefix ("0x" ++ r) "0x" = r) /\
  (forall v, String.prefix "0x" v = false -> Strconv.TrimPrefix v "0x" = v) /\
  (forall tx, exists d,
      history (snd (sendPreconfBid W (InTransaction (Some tx)) blockNumber s))
        = history s ++ d /\
      map bidReference (bids_of d) = [PayloadReference [tx]]) /\
  (exists d,
      history (snd (sendPreconfBid W InOther blockNumber s)) = history s ++ d /\
      fst (sendPreconfBid W InOther blockNumber s) = Ret tt /\
      In unsupportedWarning d /\
      bids_of d = [] /\
      count is_network d = 0%nat) /\
  (exists d,
      history (snd (sendPreconfBid W (InTransaction None) blockNumber s))
        = history s ++ d /\
      fst (sendPreconfBid W (InTransaction None) blockNumber s)
        = Panicked nilDereference /\
      ~ In unsupportedWarning d /\
      bids_of d = [] /\
      count is_network d = 0%nat).
Proof.
  repeat split.
  - intros v. rewrite sendPreconfBid_string. eexists. split; [reflexivity|].
    now rewrite bids_of_submitted.
  - apply TrimPrefix_0x_present.
  - apply TrimPrefix_0x_absent.
  - intros tx. rewrite sendPreconfBid_payload. eexists.
    split; [reflexivity|]. now rewrite bids_of_submitted.
  - rewrite sendPreconfBid_other. eexists. split; [reflexivity|].
    repeat split; cbn; auto 10.
  - rewrite sendPreconfBid_nil. eexists. split; [reflexivity|].
    unfold preamble. repeat split.
    intros [H|[H|[H|[H|[]]]]]; discriminate H.
Qed.

(** ** The decay window *)

(** Assumptions on the wall clock of the host: it does not step backwards
    while the program runs, and its instants are within the range of
    [UnixNano] (the years 1678 to 2262). *)
Definition clock_monotone (W : World) : Prop :=
  forall h d, now W h <= now W (h ++ d).

Definition clock_in_range (W : World) : Prop :=
  forall h, Int.in_int64 (now W h).

Lemma UnixMilli_in_range t :
  Int.in_int64 t ->
  UnixMilli t = t / Millisecond /\
  Int.in_int64 (t / Millisecond + 36000).
Proof.
  unfold UnixMilli, Int.in_int64, Int.min_int64, Int.max_int64, Millisecond.
  intros [Hlo Hhi].
  assert (L : - 2 ^ 63 / 1000000 <= t / 1000000)
    by (apply Z.div_le_mono; lia).
  assert (U : t / 1000000 <= (2 ^ 63 - 1) / 1000000)
    by (apply Z.div_le_mono; lia).
  change (- 2 ^ 63 / 1000000) with (-9223372036855) in L.
  change ((2 ^ 63 - 1) / 1000000) with 9223372036854 in U.
  split.
  - apply Int.wrap_int64_small.
    unfold Int.in_int64, Int.min_int64, Int.max_int64. lia.
  - lia.
Qed.

Lemma decay_window_of_bidAt W s r blockNumber :
  clock_monotone W -> clock_in_range W ->
  let b := bidAt W s r blockNumber in
  bidDecayEnd b - bidDecayStart b = 36000 /\
  UnixMilli (now W (history s)) <= bidDecayStart b.
Proof.
  intros Hmono Hrange. cbn. unfold decayStartAt.
  set (h1 := history s ++ _).
  destruct (UnixMilli_in_range _ (Hrange h1)) as [E1 R1].
  destruct (UnixMilli_in_range _ (Hrange (history s))) as [E0 _].
  rewrite E1, E0. split.
  - rewrite Int.wrap_int64_small by exact R1. lia.
  - apply Z.div_le_mono; [unfold Millisecond; lia | apply Hmono].
Qed.

(** C2, amended.  On a host whose clock does not step backwards, every bid that a
    call of [sendPreconfBid] submits has [decayEnd - decayStart = 36000]
    milliseconds, and its [decayStart] is not before the millisecond at
    which the call began; a string or a transaction as reference gives
    exactly one such bid. *)
Theorem sendPreconfBid_decay_window (W : World) (s : State) (input : Input)
    (blockNumber : Z) :
  clock_monotone W -> clock_in_range W ->
  exists d,
    history (snd (sendPreconfBid W input blockNumber s)) = history s ++ d /\
    (forall b, In b (bids_of d) ->
       bidDecayEnd b - bidDecayStart b = 36000 /\
       UnixMilli (now W (history s)) <= bidDecayStart b) /\
    match input with
    | InString _ | InTransaction (Some _) => exists b, bids_of d = [b]
    | _ => bids_of d = []
    end.
Proof.
  intros Hmono Hrange. destruct input as [v|[tx|]|].
  - rewrite sendPreconfBid_string. eexists. split; [reflexivity|].
    rewrite bids_of_submitted. split; [|eauto]. intros b [<-|[]].
    now apply decay_window_of_bidAt.
  - rewrite sendPreconfBid_payload. eexists. split; [reflexivity|].
    rewrite bids_of_submitted. split; [|eauto]. intros b [<-|[]].
    now apply decay_window_of_bidAt.
  - rewrite sendPreconfBid_nil. eexists. split; [reflexivity|].
    split; [intros b []|reflexivity].
  - rewrite sendPreconfBid_other. eexists. split; [reflexivity|].
    split; [intros b []|reflexivity].
Qed.

(** ** A sample world

    Every collaborator answers at once and succeeds unless told otherwise;
    the clock advances one millisecond per effect; the random source
    always draws one half. *)

Module Sample.

Fixpoint lookup (env : list (string * string)) (k : string) : string :=
  match env with
  | [] => ""
  | (k', x) :: env' => if String.eqb k k' then x else lookup env' k
  end.

(** The number of the last head the [select] delivered. *)
Definition headNumber (h : History) : Z :=
  fold_left (fun n e => match e with
                        | Select (NewHeader hd) => Number hd
                        | _ => n
                        end) h 0.

Definition clock (h : History) : Z :=
  1700000000 * Second
  + Z.min (Z.of_nat (List.length h)) 1000000 * Millisecond.

Definition tx : Transaction :=
  mkTransaction "0x5c504ed432cb51138bcf09aa5e8a410dd4a1e204ef84bfed1be16dfba1b22060"
    "02f86b".

Definition world (env : list (string * string))
    (rpcUp wsUp subUp : History -> bool)
    (build : History -> Z -> BuildResult) : World :=
  {| dotenv := None;
     getenv := lookup env;
     authenticate := fun _ => ("0xe51D5d4C4A2b5A3A3e3F8F4E9d1A2b3C4d5E6f70", None);
     newBidderClient := fun _ _ => None;
     dialContext := fun h _ _ =>
       if rpcUp h then inl (count is_DialContext h) else inr "dial tcp: connection refused";
     newGethClient := fun h _ =>
       if wsUp h then inl (List.length h) else inr "dial tcp: connection refused";
     subscribeNewHead := fun h _ =>
       if subUp h then inl (List.length h) else inr "notifications not supported";
     selfETHTransfer := fun h _ _ _ o => build h o;
     executeBlobTransaction := fun h _ _ _ o => build h o;
     sendBundle := fun _ _ _ _ => Returns None;
     sendBid := fun _ _ => None;
     now := clock;
     seedState := fun seed => seed;
     nextFloat64 := fun r => (0.5%float, r + 1) |}.

Definition up (_ : History) : bool := true.
Definition down (_ : History) : bool := false.

Lemma clock_monotone_world env rpcUp wsUp subUp build :
  clock_monotone (world env rpcUp wsUp subUp build).
Proof.
  intros h d. change (clock h <= clock (h ++ d)).
  unfold clock. rewrite length_app.
  apply Z.add_le_mono_l, Z.mul_le_mono_nonneg_r; [unfold Millisecond; lia|].
  apply Z.min_le_compat_r. lia.
Qed.

Lemma clock_in_range_world env rpcUp wsUp subUp build :
  clock_in_range (world env rpcUp wsUp subUp build).
Proof.
  intros h. change (Int.in_int64 (clock h)).
  unfold clock, Int.in_int64, Int.min_int64, Int.max_int64, Second,
    Millisecond.
  lia.
Qed.

End Sample.

(** The sample world with every collaborator up and a builder that never
    signs anything. *)
Definition idleWorld : World :=
  Sample.world [] Sample.up Sample.up Sample.up (fun _ _ => (None, 0, None)).

Lemma sendPreconfBid_decay_window_witness :
  exists d,
    history (snd (sendPreconfBid idleWorld (InString "0xab") 101
                    (initial idleWorld)))
      = history (initial idleWorld) ++ d /\
    (forall b, In b (bids_of d) ->
       bidDecayEnd b - bidDecayStart b = 36000 /\
       UnixMilli (now idleWorld (history (initial idleWorld)))
         <= bidDecayStart b) /\
    exists b, bids_of d = [b].
Proof.
  apply (sendPreconfBid_decay_window idleWorld (initial idleWorld)
           (InString "0xab") 101).
  - apply Sample.clock_monotone_world.
  - apply Sample.clock_in_range_world.
Defined.

(** The world [W] with the wall clock [clk]. *)
Definition withClock (W : World) (clk : History -> Z) : World :=
  {| dotenv := dotenv W;
     getenv := getenv W;
     authenticate := authenticate W;
     newBidderClient := newBidderClient W;
     dialContext := dialContext W;
     newGethClient := newGethClient W;
     subscribeNewHead := subscribeNewHead W;
     selfETHTransfer := selfETHTransfer W;
     executeBlobTransaction := executeBlobTransaction W;
     sendBundle := sendBundle W;
     sendBid := sendBid W;
     now := clk;
     seedState := seedState W;
     nextFloat64 := nextFloat64 W |}.

(** A wall clock that is set back one second after its first reading. *)
Definition steppedBackClock (h : History) : Z :=
  match h with
  | [] => 1700000001 * Second
  | _ => 1700000000 * Second
  end.

Definition steppedBackWorld : World := withClock idleWorld steppedBackClock.

(** C2, as stated, fails: when the wall clock is set back between the
    reading that seeds the random source, at the start of the call, and the
    reading of [currentTime], the window is still of 36000 ms but the
    [decayStart] of the bid is before the time at which the call began. *)
Lemma decay_start_counterexample :
  let r := sendPreconfBid steppedBackWorld (InString "0xab") 101
             (initial steppedBackWorld) in
  UnixMilli (now steppedBackWorld (history (initial steppedBackWorld)))
    = 1700000001000 /\
  map bidDecayStart (bids_of (history (snd r))) = [1700000000000] /\
  map bidDecayEnd (bids_of (history (snd r))) = [1700000036000] /\
  map (fun b => bidDecayStart b
                <? UnixMilli (now steppedBackWorld
                                (history (initial steppedBackWorld))))
    (bids_of (history (snd r))) = [true].
Proof. vm_compute. repeat split. Qed.

(** C4, as stated, fails: the nil transaction is a reference of the
    payload shape that is neither submitted nor rejected, the call panics;
    and the rejection of an unsupported type is a logged warning followed by
    a normal return, not an error. *)
Lemma dispatch_counterexample :
  let nil := sendPreconfBid idleWorld (InTransaction None) 101
               (initial idleWorld) in
  let other := sendPreconfBid idleWorld InOther 101 (initial idleWorld) in
  fst nil = Panicked nilDereference /\
  bids_of (history (snd nil)) = [] /\
  ~ In unsupportedWarning (history (snd nil)) /\
  fst other = Ret tt /\
  In unsupportedWarning (history (snd other)).
Proof.
  vm_compute. do 2 (split; [reflexivity|]).
  split; [intros [H|[H|[H|[H|[]]]]]; discriminate H|].
  split; [reflexivity|]. auto 10.
Qed.

(** ** Seeding of the random source *)

(** [reseeded_between_bids h]: somewhere in [h] the random source is
    seeded after one bid was sent and before another is. *)
Fixpoint reseeded_after_bid (seenBid seenSeed : bool) (h : History) : bool :=
  match h with
  | [] => false
  | SendBid _ :: h' =>
      (seenBid && seenSeed) || reseeded_after_bid true false h'
  | RandSeed _ :: h' => reseeded_after_bid seenBid seenBid h'
  | _ :: h' => reseeded_after_bid seenBid seenSeed h'
  end.

Definition reseeded_between_bids (h : History) : bool :=
  reseeded_after_bid false false h.

(** C9, amended.  Every call of [sendPreconfBid] seeds the random source
    once, from the nanosecond clock read when the call begins, and draws the
    amount from the source as just seeded: the seeding is per bid. *)
Theorem sendPreconfBid_seeds_each_call (W : World) (s : State)
    (input : Input) (blockNumber : Z) :
  exists d,
    history (snd (sendPreconfBid W input blockNumber s)) = history s ++ d /\
    seeds_of d = [Int.wrap_uint64 (UnixNano (now W (history s)))] /\
    rng (snd (sendPreconfBid W input blockNumber s))
      = snd (nextFloat64 W
               (seedState W (Int.wrap_uint64 (UnixNano (now W (history s)))))) /\
    forall b, In b (bids_of d) ->
      bidAmount b
      = Strconv.FormatInt
          (Int.float64_to_int64
             ((minAmount
               + fst (nextFloat64 W
                        (seedState W
                           (Int.wrap_uint64 (UnixNano (now W (history s))))))
                 * (maxAmount - minAmount)) * 1e18)%float).
Proof.
  destruct input as [v|[tx|]|].
  - rewrite sendPreconfBid_string. eexists. split; [reflexivity|].
    rewrite seeds_of_submitted, bids_of_submitted.
    repeat split. intros b [<-|[]]. reflexivity.
  - rewrite sendPreconfBid_payload. eexists. split; [reflexivity|].
    rewrite seeds_of_submitted, bids_of_submitted.
    repeat split. intros b [<-|[]]. reflexivity.
  - rewrite sendPreconfBid_nil. eexists. split; [reflexivity|].
    repeat split. intros b [].
  - rewrite sendPreconfBid_other. eexists. split; [reflexivity|].
    repeat split. intros b [].
Qed.

(** ** The target block *)

(** Modelled from the spec: the Transaction Builder ([SelfETHTransfer] and
    [ExecuteBlobTransaction] of the [core/eth] package), which is not among
    the sources.  The spec gives its target block as
    [head.number + session.offset]; the program receives it as a [uint64]. *)
Definition builderTargetBlock (headNumber offset : Z) : Z :=
  Int.wrap_uint64 (headNumber + offset).

(** A builder that signs [Sample.tx] for the block the spec names. *)
Definition specBuilder (h : History) (offset : Z) : BuildResult :=
  (Some Sample.tx, builderTargetBlock (Sample.headNumber h) offset, None).

Definition payloadEnv (offset : string) : list (string * string) :=
  [("WS_ENDPOINT", "ws://geth:8546"); ("PRIVATE_KEY", "4c0883a6");
   ("OFFSET", offset); ("ETH_TRANSFER", "true")].

Definition relayEnv (offset : string) : list (string * string) :=
  [("USE_PAYLOAD", "false"); ("RPC_ENDPOINT", "http://geth:8545")]
  ++ payloadEnv offset.

Definition payloadWorld (offset : string) : World :=
  Sample.world (payloadEnv offset) Sample.up Sample.up Sample.up specBuilder.

Definition relayWorld (offset : string) : World :=
  Sample.world (relayEnv offset) Sample.up Sample.up Sample.up specBuilder.

Definition run (W : World) (events : list Event) : Res MainOutcome * State :=
  main W 100 events (initial W).

Definition head100 : Header := mkHeader 100 1700000000 "0x9b83".
Definition head101 : Header := mkHeader 101 1700000012 "0x7c11".


(** What [sendPreconfBid] can add to the history: clock readings, one
    seeding, one draw, log records, and bids for the block it was given
    whose decay window ends 36000 ms after it starts. *)
Lemma sendPreconfBid_emits (W : World) (P : Effect -> Prop) (input : Input)
    (blockNumber : Z) :
  P TimeNow -> (forall x, P (RandSeed x)) -> P RandFloat64 ->
  (forall msg, P (Log LvlInfo msg)) -> (forall msg, P (Log LvlWarn msg)) ->
  (forall b, bidBlockNumber b = blockNumber ->
             bidDecayEnd b = Int.wrap_int64 (bidDecayStart b + 36000) ->
             P (SendBid b)) ->
  emits P (sendPreconfBid W input blockNumber).
Proof.
  intros Hnow Hseed Hdraw Hinfo Hwarn Hbid s.
  assert (Hlog : forall e, P (bidLog e)) by (intros [e|]; cbn; auto).
  destruct input as [v|[tx|]|].
  - rewrite sendPreconfBid_string. eexists. split; [reflexivity|].
    unfold submitted, preamble. cbn. repeat constructor; auto.
  - rewrite sendPreconfBid_payload. eexists. split; [reflexivity|].
    unfold submitted, preamble. cbn. repeat constructor; auto.
  - rewrite sendPreconfBid_nil. eexists. split; [reflexivity|].
    unfold preamble. repeat constructor; auto.
  - rewrite sendPreconfBid_other. eexists. split; [reflexivity|].
    unfold preamble. cbn. repeat constructor; auto.
Qed.

(** The builder's answer in a configured mode. *)
Definition builderAnswer (W : World) (cfg : Config) (v : Vars) (h : History)
    : BuildResult :=
  if String.eqb (ethTransfer cfg) "true"
  then selfETHTransfer W h (wsClient v) (authAcct cfg) 1000000000000000
         (offset cfg)
  else executeBlobTransaction W h (wsClient v) (authAcct cfg) NUM_BLOBS
         (offset cfg).

Definition builderCall (cfg : Config) (v : Vars) : Effect :=
  if String.eqb (ethTransfer cfg) "true"
  then SelfETHTransfer (wsClient v) 1000000000000000 (offset cfg)
  else ExecuteBlobTransaction (wsClient v) NUM_BLOBS (offset cfg).

Definition mode_configured (cfg : Config) : bool :=
  String.eqb (ethTransfer cfg) "true" || String.eqb (blob cfg) "true".

Lemma buildTransaction_configured W cfg v s :
  mode_configured cfg = true ->
  buildTransaction W cfg v s =
  (Ret (builderAnswer W cfg v (history s)),
   mkState (history s ++ [builderCall cfg v]) (rng s)).
Proof.
  unfold mode_configured, buildTransaction, builderAnswer, builderCall.
  destruct (String.eqb (ethTransfer cfg) "true"); cbn.
  - reflexivity.
  - intros ->. reflexivity.
Qed.

Lemma buildTransaction_unconfigured W cfg v s :
  mode_configured cfg = false ->
  buildTransaction W cfg v s = (Ret (None, 0, err v), s).
Proof.
  unfold mode_configured, buildTransaction.
  destruct (String.eqb (ethTransfer cfg) "true"); cbn; [discriminate|].
  intros ->. reflexivity.
Qed.

(** What the second part of the iteration can add to the history: log
    records, at most the bundle of the transaction it was given for the
    block it was given, and what [sendPreconfBid] adds for that block as a
    signed 64-bit integer. *)
Definition of_block (signedTx : option Transaction) (blockNumber : Z)
    (e : Effect) : Prop :=
  match e with
  | SendBid b =>
      bidBlockNumber b = Int.wrap_int64 blockNumber /\
      bidDecayEnd b = Int.wrap_int64 (bidDecayStart b + 36000)
  | SendBundle _ tx n => tx = signedTx /\ n = blockNumber
  | Log LvlCrit _ | OsExit _ | Sleep _ | GodotenvLoad | AuthenticateAddress
  | NewBidderClient _ | DialContext _ _ | NewGethClient _
  | SubscribeNewHead _ | SelfETHTransfer _ _ _
  | ExecuteBlobTransaction _ _ _ | NewTimer _ | Select _ => False
  | _ => True
  end.

Lemma bidTransaction_emits W cfg signedTx blockNumber err1 :
  emits (of_block signedTx blockNumber)
    (bidTransaction W cfg (signedTx, blockNumber, err1)).
Proof.
  unfold bidTransaction.
  apply emits_bind;
    [destruct signedTx; apply emits_emit; exact I | intros _].
  apply emits_bind; [apply emits_when, emits_emit; exact I | intros _].
  apply emits_bind; [apply emits_emit; exact I | intros _].
  apply emits_bind.
  - destruct (usePayload cfg).
    + apply emits_bind; [|intros; apply emits_ret].
      apply sendPreconfBid_emits; cbn; auto.
    + apply emits_bind; [apply emits_callExt; cbn; auto | intros e].
      apply emits_bind; [apply emits_when, emits_emit; exact I | intros _].
      apply emits_bind.
      * destruct signedTx; [apply emits_ret | apply emits_panic].
      * intros hash. apply emits_bind; [|intros; apply emits_ret].
        apply sendPreconfBid_emits; cbn; auto.
  - intros err2. apply emits_bind; [|intros; apply emits_ret].
    apply emits_when, emits_emit. exact I.
Qed.

Lemma in_bids_of b (d : History) : In b (bids_of d) <-> In (SendBid b) d.
Proof.
  unfold bids_of. rewrite in_flat_map. split.
  - intros (e & He & Hb). destruct e; cbn in Hb; try contradiction.
    destruct Hb as [<-|[]]. exact He.
  - intros H. exists (SendBid b). cbn. auto.
Qed.

Lemma in_bundles_of tx n (d : History) :
  In (tx, n) (bundles_of d) <-> exists ep, In (SendBundle ep tx n) d.
Proof.
  unfold bundles_of. rewrite in_flat_map. split.
  - intros (e & He & Hb). destruct e; cbn in Hb; try contradiction.
    destruct Hb as [[= <- <-]|[]]. eauto.
  - intros (ep & H). exists (SendBundle ep tx n). cbn. auto.
Qed.

Lemma history_bind_ret {A B} (m : M A) (f : A -> B) s :
  history (snd (bind m (fun a => ret (f a)) s)) = history (snd (m s)).
Proof. unfold bind, ret. now destruct (m s) as [[a|c|msg|] s']. Qed.

(** In payload mode a signed transaction gives exactly one bid. *)
Lemma bidTransaction_payload_signed W cfg tx blockNumber err1 s :
  usePayload cfg = true ->
  exists b,
    bids_of (history (snd (bidTransaction W cfg (Some tx, blockNumber, err1) s)))
    = bids_of (history s) ++ [b].
Proof.
  intros Hp. unfold bidTransaction. rewrite Hp.
  unfold logInfo, logError, when, bind, emit, ret. cbn.
  destruct err1; cbn; rewrite sendPreconfBid_payload; cbn;
    rewrite ?bids_of_app, bids_of_submitted; cbn;
    rewrite ?app_nil_r; eauto.
Qed.

(** C1, amended.  In a configured mode, when the builder answers with the
    target block the spec gives it (head number plus offset) and that sum is
    at most 2^63 - 1, the iteration hands the configured offset to the
    builder, and every bundle it relays and every bid it submits carries
    exactly the head number plus the offset; in payload mode a signed
    transaction gives one such bid. *)
Theorem handleHeader_target_block (W : World) (cfg : Config) (v : Vars)
    (header : Header) (s : State) :
  mode_configured cfg = true ->
  snd (fst (builderAnswer W cfg v (history s)))
    = builderTargetBlock (Number header) (offset cfg) ->
  0 <= Number header -> 0 <= offset cfg ->
  Number header + offset cfg <= Int.max_int64 ->
  exists d,
    history (snd (handleHeader W cfg v header s)) = history s ++ d /\
    In (builderCall cfg v) d /\
    (forall b, In b (bids_of d) ->
       bidBlockNumber b = Number header + offset cfg) /\
    (forall tx n, In (tx, n) (bundles_of d) ->
       n = Number header + offset cfg) /\
    (usePayload cfg = true ->
     fst (fst (builderAnswer W cfg v (history s))) <> None ->
     exists b, bids_of d = [b]).
Proof.
  intros Hmode Hbuilt Hn Ho Hsum.
  assert (Hblock : builderTargetBlock (Number header) (offset cfg)
                   = Number header + offset cfg).
  { unfold builderTargetBlock. apply Int.wrap_uint64_small.
    unfold Int.in_uint64, Int.max_uint64, Int.max_int64 in *. lia. }
  assert (Hcast : Int.wrap_int64 (Number header + offset cfg)
                  = Number header + offset cfg).
  { apply Int.wrap_int64_small.
    unfold Int.in_int64, Int.min_int64, Int.max_int64 in *. lia. }
  unfold handleHeader. unfold bind at 1.
  rewrite (buildTransaction_configured W cfg v s Hmode).
  destruct (builderAnswer W cfg v (history s)) as [[signedTx blockNumber] err1].
  cbn in Hbuilt. rewrite Hblock in Hbuilt. subst blockNumber.
  set (s1 := mkState (history s ++ [builderCall cfg v]) (rng s)).
  rewrite history_bind_ret.
  destruct (bidTransaction_emits W cfg signedTx
              (Number header + offset cfg) err1 s1) as (d & E & F).
  exists ([builderCall cfg v] ++ d). rewrite E. cbn [history s1].
  rewrite <- app_assoc. split; [reflexivity|].
  rewrite Forall_forall in F.
  split; [cbn; auto|]. split; [|split].
  - intros b Hb. cbn [app] in Hb.
    assert (Hin : In (SendBid b) d).
    { apply in_bids_of in Hb. destruct Hb as [Hb|Hb]; [|exact Hb].
      unfold builderCall in Hb.
      destruct (String.eqb (ethTransfer cfg) "true"); discriminate Hb. }
    destruct (F _ Hin) as [Hb1 _]. now rewrite Hb1.
  - intros tx n Hb.
    apply in_bundles_of in Hb. destruct Hb as (ep & [Hb|Hb]).
    + unfold builderCall in Hb.
      destruct (String.eqb (ethTransfer cfg) "true"); discriminate Hb.
    + now destruct (F _ Hb) as [_ ->].
  - intros Hp Hsigned. cbn in Hsigned.
    destruct signedTx as [tx|]; [|congruence].
    destruct (bidTransaction_payload_signed W cfg tx
                (Number header + offset cfg) err1 s1 Hp) as (b & Hb).
    rewrite E, bids_of_app in Hb. apply app_inv_head in Hb.
    exists b. rewrite bids_of_app, Hb. unfold builderCall.
    now destruct (String.eqb (ethTransfer cfg) "true").
Qed.

Definition sampleConfig : Config :=
  mkConfig true "" "ws://geth:8546" 1 "true" ""
    "0xe51D5d4C4A2b5A3A3e3F8F4E9d1A2b3C4d5E6f70".

Definition sampleVars : Vars := mkVars (Some 5%nat) (Some 7%nat) None.

(** The state in which the [select] has just delivered [head100]. *)
Definition atHead100 : State :=
  mkState [Select (NewHeader head100)] 1.

Lemma handleHeader_target_block_witness :
  exists d,
    history (snd (handleHeader (payloadWorld "1") sampleConfig sampleVars
                    head100 atHead100))
      = history atHead100 ++ d /\
    In (builderCall sampleConfig sampleVars) d /\
    (forall b, In b (bids_of d) ->
       bidBlockNumber b = Number head100 + offset sampleConfig) /\
    (forall tx n, In (tx, n) (bundles_of d) ->
       n = Number head100 + offset sampleConfig) /\
    (usePayload sampleConfig = true ->
     fst (fst (builderAnswer (payloadWorld "1") sampleConfig sampleVars
                 (history atHead100))) <> None ->
     exists b, bids_of d = [b]).
Proof.
  apply (handleHeader_target_block (payloadWorld "1") sampleConfig sampleVars
           head100 atHead100).
  - reflexivity.
  - vm_compute. reflexivity.
  - vm_compute. discriminate.
  - vm_compute. discriminate.
  - vm_compute. discriminate.
Defined.

(** C1, as stated, fails: with [OFFSET=9223372036854775808] and the head
    numbered 100 the builder is asked for, and the bundle relay is given,
    block 100 + 2^63, and the bid is submitted for a negative block. *)
Lemma target_block_counterexample :
  let h := history (snd (run (relayWorld "9223372036854775808")
                           [NewHeader head100])) in
  bundles_of h = [(Some Sample.tx, 100 + 2 ^ 63)] /\
  map bidBlockNumber (bids_of h) = [100 + 2 ^ 63 - 2 ^ 64] /\
  map bidBlockNumber (bids_of h) <> [Number head100 + 2 ^ 63].
Proof. vm_compute. repeat split; discriminate. Qed.

(** C9, as stated, fails: in a run that bids on two heads the random
    source is seeded again, from the clock, between the two bids. *)
Lemma seeding_counterexample :
  let h := history (snd (run (payloadWorld "1")
                           [NewHeader head100; NewHeader head101])) in
  List.length (bids_of h) = 2%nat /\
  seeds_of h = [1700000000013000000; 1700000000024000000] /\
  reseeded_between_bids h = true.
Proof. vm_compute. repeat split. Qed.

(** ** A nil transaction *)

Definition notSignedError : Effect :=
  Log LvlError "Transaction was not signed or created.".

Definition is_panic {A} (r : Res A) : bool :=
  match r with Panicked _ => true | _ => false end.

(** What the rest of the iteration does with a nil [signedTx]. *)
Lemma bidTransaction_nil (W : World) (cfg : Config) (blockNumber : Z)
    (err1 : option error) (s : State) :
  exists d,
    history (snd (bidTransaction W cfg (None, blockNumber, err1) s))
      = history s ++ d /\
    In notSignedError d /\
    is_panic (fst (bidTransaction W cfg (None, blockNumber, err1) s)) = true /\
    bids_of d = [] /\
    (if usePayload cfg
     then List.length (seeds_of d) = 1%nat /\ bundles_of d = []
     else bundles_of d = [(None, blockNumber)] /\ seeds_of d = []).
Proof.
  unfold bidTransaction, notSignedError.
  destruct (usePayload cfg).
  - unfold logInfo, logError, when, bind, emit, ret. cbn.
    destruct err1; cbn; rewrite sendPreconfBid_nil; cbn;
      rewrite <- ?app_assoc; cbn; eexists; (split; [reflexivity|]);
      cbn; auto 10.
  - unfold callExt, call, ask, hashString, panic, logInfo, logError, when,
      bind, emit, ret. cbn.
    destruct err1; cbn;
      (destruct (sendBundle W _ _ _ _) as [[e'|]|msg]; cbn);
      rewrite <- ?app_assoc; cbn; eexists; (split; [reflexivity|]);
      cbn; auto 10.
Qed.

(** ** The RPC dialer *)

(** The attempts [i], [i+1], ..., [i+n-1]. *)
Definition attempts (i : Z) (n : nat) : list Z :=
  map (fun k => i + Z.of_nat k) (seq 0 n).

(** What the dialer sleeps after failed attempt [k]. *)
Definition backoff (k : Z) : Z := Int.wrap_int64 (10 * pow2Duration k).

Definition exhaustedError : Effect :=
  Log LvlError "failed to connect to RPC client after retries".

(** The only effects of the dialer. *)
Definition rpc_effect (endpoint : string) (timeout : Z) (e : Effect) : Prop :=
  match e with
  | DialContext ep t => ep = endpoint /\ t = timeout
  | Log LvlWarn _ | Log LvlError _ | Sleep _ => True
  | _ => False
  end.

Lemma attempts_S i n : attempts i (S n) = i :: attempts (i + 1) n.
Proof.
  unfold attempts. cbn [seq map]. rewrite Z.add_0_r. f_equal.
  rewrite <- seq_shift, map_map. apply map_ext. intros k. lia.
Qed.

Lemma backoff_exact k : 0 <= k < 60 -> backoff k = 10 * 2 ^ k.
Proof.
  intros Hk. unfold backoff, pow2Duration.
  destruct (Z.ltb_spec k 0); [lia|].
  destruct (Z.leb_spec k 62); [|lia].
  apply Int.wrap_int64_small.
  unfold Int.in_int64, Int.min_int64, Int.max_int64.
  assert (0 < 2 ^ k) by (apply Z.pow_pos_nonneg; lia).
  assert (2 ^ k <= 2 ^ 59) by (apply Z.pow_le_mono_r; lia).
  change (2 ^ 59) with 576460752303423488 in *.
  change (2 ^ 63) with 9223372036854775808. lia.
Qed.

(** The loop of the dialer, [remaining] attempts from attempt [i] on: it
    always returns; it dials once more than it failed when it returns a
    connection, which is the one its last dial gave; it dials [remaining]
    times, failing each time, when it returns nil, and then its last act is
    the error record. *)
Lemma connectRPCLoop_spec (W : World) (ep : string) (timeout : Z) :
  forall (remaining : nat) (i : Z) (s : State),
  exists (failed : nat) (d : History),
    history (snd (connectRPCLoop W remaining i ep timeout s))
      = history s ++ d /\
    Forall (rpc_effect ep timeout) d /\
    (count is_DialContext d <= remaining)%nat /\
    sleeps_of d = map backoff (attempts i failed) /\
    match fst (connectRPCLoop W remaining i ep timeout s) with
    | Ret (Some c) =>
        count is_DialContext d = S failed /\
        exists d', d = d' ++ [DialContext ep timeout] /\
                   dialContext W (history s ++ d') ep timeout = inl c
    | Ret None =>
        failed = remaining /\ count is_DialContext d = remaining /\
        exists d', d = d' ++ [exhaustedError]
    | _ => False
    end.
Proof.
  induction remaining as [|remaining IH]; intros i s.
  - exists 0%nat, [exhaustedError]. cbn. repeat split; auto.
    + repeat constructor.
    + exists []. reflexivity.
  - cbn [connectRPCLoop].
    unfold bind at 1, call, bind, ask, emit, ret. cbn [fst snd history rng].
    destruct (dialContext W (history s) ep timeout) as [c|e] eqn:Ed.
    + exists 0%nat, [DialContext ep timeout]. cbn. repeat split; auto.
      * repeat constructor.
      * lia.
      * exists []. rewrite app_nil_r. auto.
    + unfold logWarn, timeSleep, bind, emit. cbn [fst snd history rng].
      match goal with
      | |- context [connectRPCLoop W remaining (i + 1) ep timeout ?s1] =>
          set (st := s1)
      end.
      destruct (IH (i + 1) st) as (failed & d & E & F & L & Sl & R).
      destruct (connectRPCLoop W remaining (i + 1) ep timeout st)
        as [r s'].
      cbn [fst snd] in *. subst st. cbn [history] in *.
      exists (S failed),
        ([DialContext ep timeout;
          Log LvlWarn "failed to connect to RPC client, retrying...";
          Sleep (backoff i)] ++ d).
      assert (Hs' : history s' =
                    history s ++
                    [DialContext ep timeout;
                     Log LvlWarn "failed to connect to RPC client, retrying...";
                     Sleep (backoff i)] ++ d).
      { rewrite E, <- !app_assoc. reflexivity. }
      split; [destruct r as [[c|]|code|msg|]; exact Hs'|].
      split; [repeat constructor; auto|].
      split; [rewrite count_app; cbn; lia|].
      split.
      { rewrite sleeps_of_app, Sl, attempts_S. reflexivity. }
      destruct r as [[c|]|code|msg|]; try contradiction.
      * destruct R as (Hc & d' & -> & Hd). split.
        { rewrite count_app, Hc. reflexivity. }
        eexists. split; [rewrite app_assoc; reflexivity|].
        rewrite <- Hd. f_equal. rewrite <- !app_assoc. reflexivity.
      * destruct R as (-> & Hc & d' & ->). split; [reflexivity|].
        split; [rewrite count_app, Hc; reflexivity|].
        eexists. rewrite app_assoc. reflexivity.
Qed.

(** The step of [main] in terms of the loop of the dialer. *)
Lemma connectRPC_dials (W : World) (ep : string) (timeout : Z) (s : State) :
  connectRPC W false ep timeout s =
  match connectRPCLoop W 5 0 ep timeout s with
  | (Ret (Some _), s') =>
      (Ret tt,
       mkState (history s' ++ [Log LvlInfo "(rpc) geth client connected"])
         (rng s'))
  | (Ret None, s') =>
      (Ret tt,
       mkState (history s' ++ [Log LvlError "failed to connect to RPC client";
                               Log LvlInfo "(rpc) geth client connected"])
         (rng s'))
  | (Exited c, s') => (Exited c, s')
  | (Panicked msg, s') => (Panicked msg, s')
  | (OutOfFuel, s') => (OutOfFuel, s')
  end.
Proof.
  unfold connectRPC, connectRPCClientWithRetries. cbn [negb when].
  change (Z.to_nat 5) with 5%nat. unfold bind at 1.
  destruct (connectRPCLoop W 5 0 ep timeout s) as [[[c|]|code|msg|] s'];
    try reflexivity.
  unfold logInfo, logError, when, bind, emit. cbn.
  rewrite <- ?app_assoc. reflexivity.
Qed.

Lemma atmost_of_nat (n : nat) (z : Z) : (n <= Z.to_nat z)%nat -> Z.of_nat n <= Z.max 0 z.
Proof. lia. Qed.

(** The time slept in all, in nanoseconds. *)
Definition total (sleeps : list Z) : Z := fold_right Z.add 0 sleeps.

Lemma sleeps_of_five (failed : nat) :
  (failed <= 5)%nat ->
  total (map backoff (attempts 0 failed)) <= 310.
Proof.
  intros H.
  do 6 (destruct failed as [|failed]; [vm_compute; discriminate|]). lia.
Qed.

(** C8, the code as it is.  The dialer makes at most [maxRetries] dial
    attempts, each to the endpoint with the timeout it was given; at the
    first success it returns that connection and does nothing more; when
    every attempt has failed it logs the error and returns nil.  It never
    exits, and neither does the step of [main] that calls it: a nil
    connection is logged and the startup goes on.  After failed attempt [k]
    it sleeps [10 * 2^k] units of [time.Duration], which are nanoseconds:
    the argument of [time.Sleep] has no [time.Second] factor, so the five
    attempts of [main] sleep 310 nanoseconds at most, all told. *)
Theorem connectRPCClientWithRetries_backoff (W : World) (ep : string)
    (maxRetries timeout : Z) (s : State) :
  maxRetries <= 60 ->
  (exists (failed : nat) (d : History),
    history (snd (connectRPCClientWithRetries W ep maxRetries timeout s))
      = history s ++ d /\
    Forall (rpc_effect ep timeout) d /\
    Z.of_nat (count is_DialContext d) <= Z.max 0 maxRetries /\
    sleeps_of d = map (fun k => 10 * 2 ^ k) (attempts 0 failed) /\
    match fst (connectRPCClientWithRetries W ep maxRetries timeout s) with
    | Ret (Some c) =>
        count is_DialContext d = S failed /\
        exists d', d = d' ++ [DialContext ep timeout] /\
                   dialContext W (history s ++ d') ep timeout = inl c
    | Ret None =>
        Z.of_nat failed = Z.max 0 maxRetries /\
        count is_DialContext d = failed /\
        exists d', d = d' ++ [exhaustedError]
    | _ => False
    end) /\
  (forall usePayload,
     fst (connectRPC W usePayload ep timeout s) = Ret tt /\
     (usePayload = true -> connectRPC W usePayload ep timeout s = (Ret tt, s)) /\
     (exists d,
        history (snd (connectRPC W usePayload ep timeout s)) = history s ++ d /\
        (count is_DialContext d <= 5)%nat /\
        Forall (fun e => forall code, e <> OsExit code) d /\
        total (sleeps_of d) <= 310 /\ 310 < Second)).
Proof.
  intros Hmax. split.
  - unfold connectRPCClientWithRetries.
    destruct (connectRPCLoop_spec W ep timeout (Z.to_nat maxRetries) 0 s)
      as (failed & d & E & F & L & Sl & R).
    exists failed, d. split; [exact E|]. split; [exact F|].
    assert (Hsl : map backoff (attempts 0 failed)
                  = map (fun k => 10 * 2 ^ k) (attempts 0 failed)).
    { assert (Hfailed : (failed <= Z.to_nat maxRetries)%nat).
      { destruct (fst (connectRPCLoop W (Z.to_nat maxRetries) 0 ep timeout s))
          as [[c|]|code|msg|]; try contradiction.
        - destruct R as (Hc & _). lia.
        - destruct R as (Hf & _). lia. }
      apply map_ext_in. intros k Hk. apply backoff_exact.
      unfold attempts in Hk. apply in_map_iff in Hk.
      destruct Hk as (j & <- & Hj). apply in_seq in Hj. lia. }
    split; [apply atmost_of_nat; exact L|].
    split; [congruence|].
    destruct (fst (connectRPCLoop W (Z.to_nat maxRetries) 0 ep timeout s))
      as [[c|]|code|msg|]; try contradiction.
    + exact R.
    + destruct R as (Hf & Hc & R). split; [lia|]. split; [congruence|].
      exact R.
  - intros usePayload. destruct usePayload.
    + unfold connectRPC. cbn [negb when].
      split; [reflexivity|]. split; [reflexivity|].
      exists []. cbn. rewrite app_nil_r. split; [reflexivity|].
      split; [lia|]. split; [constructor|]. split; [lia|reflexivity].
    + rewrite connectRPC_dials.
      destruct (connectRPCLoop_spec W ep timeout 5 0 s)
        as (failed & d & E & F & L & Sl & R).
      destruct (connectRPCLoop W 5 0 ep timeout s) as [r s'].
      cbn [fst snd] in *.
      assert (Hnoexit : Forall (fun e => forall code, e <> OsExit code) d).
      { eapply Forall_impl; [|exact F]. intros e He code ->. exact He. }
      assert (Hfailed : (failed <= 5)%nat).
      { destruct r as [[c|]|code|msg|]; try contradiction.
        - destruct R as (Hc & _). lia.
        - destruct R as (Hf & _). lia. }
      assert (Hsleep : total (sleeps_of d) <= 310).
      { rewrite Sl. apply sleeps_of_five, Hfailed. }
      destruct r as [[c|]|code|msg|]; try contradiction.
      * cbn [fst snd history]. split; [reflexivity|]. split; [discriminate|].
        exists (d ++ [Log LvlInfo "(rpc) geth client connected"]).
        rewrite E, app_assoc. split; [reflexivity|].
        rewrite count_app. cbn [count filter is_DialContext List.length].
        split; [lia|]. split.
        { apply Forall_app. split; [exact Hnoexit|].
          repeat constructor. discriminate. }
        rewrite sleeps_of_app. cbn [sleeps_of flat_map app].
        rewrite app_nil_r. split; [exact Hsleep|reflexivity].
      * cbn [fst snd history]. split; [reflexivity|]. split; [discriminate|].
        exists (d ++ [Log LvlError "failed to connect to RPC client";
                      Log LvlInfo "(rpc) geth client connected"]).
        rewrite E, <- !app_assoc. split; [reflexivity|].
        rewrite count_app. cbn [count filter is_DialContext List.length].
        split; [lia|]. split.
        { apply Forall_app. split; [exact Hnoexit|].
          repeat constructor; discriminate. }
        rewrite sleeps_of_app. cbn [sleeps_of flat_map app].
        rewrite app_nil_r. split; [exact Hsleep|reflexivity].
Qed.

Definition rpcDownWorld : World :=
  Sample.world (relayEnv "1") Sample.down Sample.up Sample.up specBuilder.

(** At the failing input, an RPC endpoint that refuses every dial: the
    five sleeps are of 10, 20, 40, 80 and 160 nanoseconds, where the sleeps
    of [connectWSClient] and [reconnectWSClient] are of ten and five
    seconds. *)
Lemma connectRPCClientWithRetries_backoff_witness :
  exists (d : History),
    history (snd (connectRPCClientWithRetries rpcDownWorld "http://geth:8545"
                    5 (30 * Second) (initial rpcDownWorld)))
      = history (initial rpcDownWorld) ++ d /\
    count is_DialContext d = 5%nat /\
    sleeps_of d = [10; 20; 40; 80; 160] /\
    total (sleeps_of d) < 10 * Second.
Proof.
  destruct (connectRPCClientWithRetries_backoff rpcDownWorld
              "http://geth:8545" 5 (30 * Second) (initial rpcDownWorld))
    as [(failed & d & E & F & C & Sl & R) _]; [lia|].
  assert (Hr : fst (connectRPCClientWithRetries rpcDownWorld
                      "http://geth:8545" 5 (30 * Second)
                      (initial rpcDownWorld)) = Ret None)
    by (vm_compute; reflexivity).
  rewrite Hr in R. destruct R as (Hf & Hc & _).
  assert (H5 : failed = 5%nat) by lia. rewrite H5 in Hc, Sl.
  exists d. split; [exact E|]. split; [exact Hc|].
  rewrite Sl. split; reflexivity.
Defined.

(** ** The head stream *)

(** The only effects of [connectWSClient]. *)
Definition ws_effect (endpoint : string) (e : Effect) : Prop :=
  match e with
  | NewGethClient ep => ep = endpoint
  | Log LvlWarn _ => True
  | Sleep d => d = 10 * Second
  | _ => False
  end.

(** [connectWSClient] returns a connection and a nil error, unless its
    loop goes on beyond the fuel: it has no other way out. *)
Lemma connectWSClient_spec (W : World) (ep : string) :
  forall (fuel : nat) (s : State),
  exists d,
    history (snd (connectWSClient W fuel ep s)) = history s ++ d /\
    Forall (ws_effect ep) d /\
    match fst (connectWSClient W fuel ep s) with
    | Ret (Some _, None) => True
    | OutOfFuel => True
    | _ => False
    end.
Proof.
  induction fuel as [|fuel IH]; intros s.
  - exists []. cbn. rewrite app_nil_r. auto.
  - destruct (connectWSClient W (S fuel) ep s) as [r s'] eqn:Er.
    cbn [connectWSClient] in Er.
    unfold bind at 1, call, bind, ask, emit, ret in Er.
    cbn [fst snd history rng] in Er.
    destruct (newGethClient W (history s) ep) as [c|e].
    + injection Er as <- <-. exists [NewGethClient ep]. cbn.
      repeat constructor.
    + unfold logWarn, timeSleep, bind, emit in Er.
      cbn [fst snd history rng] in Er.
      match type of Er with
      | connectWSClient W fuel ep ?s1 = _ =>
          destruct (IH s1) as (d & E & F & R)
      end.
      rewrite Er in E, R. cbn [fst snd history] in *.
      exists ([NewGethClient ep;
               Log LvlWarn "failed to connect to websocket client";
               Sleep (10 * Second)] ++ d).
      rewrite E, <- !app_assoc. split; [reflexivity|].
      split; [repeat constructor; auto | exact R].
Qed.

(** What a dial that fails adds to the history. *)
Definition failedDial (ep : string) : History :=
  [NewGethClient ep;
   Log LvlWarn "failed to connect to websocket client";
   Sleep (10 * Second)].

(** [refused W ep h n]: the endpoint refuses [n] dials in a row from the
    history [h] on. *)
Fixpoint refused (W : World) (ep : string) (h : History) (n : nat) : bool :=
  match n with
  | O => true
  | S n' =>
      match newGethClient W h ep with
      | inl _ => false
      | inr _ => refused W ep (h ++ failedDial ep) n'
      end
  end.

(** The model of [connectWSClient] runs out of fuel exactly when the
    endpoint refuses as many dials in a row as there is fuel. *)
Lemma connectWSClient_outOfFuel (W : World) (ep : string) :
  forall (fuel : nat) (s : State),
    fst (connectWSClient W fuel ep s) = OutOfFuel <->
    refused W ep (history s) fuel = true.
Proof.
  induction fuel as [|fuel IH]; intros s.
  - cbn. split; reflexivity.
  - cbn [connectWSClient refused].
    unfold bind at 1, call, bind, ask, emit, ret. cbn [fst snd history rng].
    destruct (newGethClient W (history s) ep) as [c|e].
    + cbn. split; discriminate.
    + unfold logWarn, timeSleep, bind, emit. cbn [fst snd history rng].
      rewrite <- !app_assoc. cbn [app].
      exact (IH (mkState (history s ++ failedDial ep) (rng s))).
Qed.

Definition is_retry_sleep (e : Effect) : bool :=
  match e with Sleep d => d =? 5 * Second | _ => false end.

Definition reconnectFatal : History :=
  [Log LvlCrit "failed to reconnect WebSocket client after retries"; OsExit 1].

(** The only effects of [reconnectWSClient]. *)
Definition reconnect_effect (endpoint : string) (e : Effect) : Prop :=
  match e with
  | NewGethClient ep => ep = endpoint
  | Log LvlCrit msg =>
      msg = "failed to reconnect WebSocket client after retries"
  | Log _ _ | SubscribeNewHead _ => True
  | Sleep d => d = 10 * Second \/ d = 5 * Second
  | OsExit code => code = 1
  | _ => False
  end.

Lemma ws_effect_reconnect ep (d : History) :
  Forall (ws_effect ep) d ->
  Forall (reconnect_effect ep) d /\
  count is_SubscribeNewHead d = 0%nat /\ count is_retry_sleep d = 0%nat.
Proof.
  intros F. split; [|split].
  - eapply Forall_impl; [|exact F].
    intros [[]| | | | | | | | | | | | | | | | |]; cbn; intros;
      try contradiction; auto.
  - apply count_none. eapply Forall_impl; [|exact F].
    intros [[]| | | | | | | | | | | | | | | | |]; cbn; intros;
      try contradiction; auto.
  - apply count_none. eapply Forall_impl; [|exact F].
    intros [[]| | | | | | | | | | | | | | | | |]; cbn; intros;
      try contradiction; auto.
    subst. reflexivity.
Qed.

(** The loop of [reconnectWSClient] with [remaining] attempts left.  An
    attempt is a connection followed by a subscription; a failed one is
    followed by a sleep of five seconds.  The loop returns at the first
    subscription that succeeds; after [remaining] failed attempts it logs the
    critical record and exits with status 1. *)
Lemma reconnectLoop_spec (W : World) (fuel : nat) (ep : string) :
  forall (remaining : nat) (s : State),
  exists d,
    history (snd (reconnectLoop W fuel remaining ep s)) = history s ++ d /\
    Forall (reconnect_effect ep) d /\
    match fst (reconnectLoop W fuel remaining ep s) with
    | Ret (Some c, Some sub) =>
        (count is_SubscribeNewHead d <= remaining)%nat /\
        count is_SubscribeNewHead d = S (count is_retry_sleep d) /\
        exists d', d = d' ++ [SubscribeNewHead c] /\
                   subscribeNewHead W (history s ++ d') c = inl sub
    | Exited code =>
        code = 1 /\
        count is_SubscribeNewHead d = remaining /\
        count is_retry_sleep d = remaining /\
        exists d', d = d' ++ reconnectFatal
    | OutOfFuel =>
        (count is_SubscribeNewHead d < remaining)%nat /\
        count is_retry_sleep d = count is_SubscribeNewHead d /\
        exists d' d'', d = d' ++ d'' /\
                       refused W ep (history s ++ d') fuel = true
    | _ => False
    end.
Proof.
  induction remaining as [|remaining IH]; intros s.
  - exists reconnectFatal. cbn.
    split; [now rewrite <- app_assoc|]. split; [repeat constructor|].
    repeat split. exists []. reflexivity.
  - destruct (reconnectLoop W fuel (S remaining) ep s) as [r s'] eqn:Er.
    cbn [reconnectLoop] in Er. unfold bind at 1 in Er.
    destruct (connectWSClient_spec W ep fuel s) as (d0 & E0 & F0 & R0).
    pose proof (connectWSClient_outOfFuel W ep fuel s) as O0.
    destruct (connectWSClient W fuel ep s) as [r0 s0].
    cbn [fst snd] in E0, R0, O0.
    destruct (ws_effect_reconnect ep d0 F0) as (G0 & C0 & S0).
    destruct r0 as [[[c|] [e|]]|code|msg|]; try contradiction.
    + (* connected *)
      unfold isNil, logInfo, subscribe, call in Er.
      unfold bind at 1, bind at 1, bind at 1, bind at 1, emit, ask, ret in Er.
      cbn [fst snd history rng] in Er.
      destruct (subscribeNewHead W
                  (history s0 ++ [Log LvlInfo "(ws) geth client reconnected"])
                  c) as [sub|e] eqn:Es.
      * unfold bind, ret in Er. cbn in Er. injection Er as <- <-.
        exists (d0 ++ [Log LvlInfo "(ws) geth client reconnected";
                       SubscribeNewHead c]).
        cbn [fst snd history]. rewrite E0, <- !app_assoc.
        split; [reflexivity|].
        split; [apply Forall_app; split; [exact G0|repeat constructor]|].
        rewrite !count_app, C0, S0. cbn.
        split; [lia|]. split; [reflexivity|].
        exists (d0 ++ [Log LvlInfo "(ws) geth client reconnected"]).
        rewrite <- !app_assoc. split; [reflexivity|].
        rewrite <- Es, E0, <- !app_assoc. reflexivity.
      * unfold logWarn, timeSleep in Er.
        unfold bind at 1, bind at 1, bind at 1, emit, ret in Er.
        cbn [fst snd history rng] in Er.
        match type of Er with
        | reconnectLoop W fuel remaining ep ?s1 = _ =>
            destruct (IH s1) as (d & E & F & R)
        end.
        rewrite Er in E, R. cbn [fst snd history] in E, R.
        set (pre := d0 ++ [Log LvlInfo "(ws) geth client reconnected";
                           SubscribeNewHead c;
                           Log LvlWarn
                             "failed to reconnect WebSocket client, retrying...";
                           Sleep (5 * Second)]).
        assert (Hpre : Forall (reconnect_effect ep) pre).
        { apply Forall_app. split; [exact G0|].
          repeat first
            [ apply Forall_nil
            | apply Forall_cons; [cbn; first [exact I | now right]|] ]. }
        assert (Csub : count is_SubscribeNewHead pre = 1%nat).
        { unfold pre. rewrite count_app, C0. reflexivity. }
        assert (Cslp : count is_retry_sleep pre = 1%nat).
        { unfold pre. rewrite count_app, S0. reflexivity. }
        exists (pre ++ d). cbn [fst snd].
        split.
        { rewrite E, E0. unfold pre. rewrite <- !app_assoc. reflexivity. }
        split; [apply Forall_app; auto|].
        rewrite !count_app, Csub, Cslp.
        destruct r as [[[c1|] [sub1|]]|code|msg|]; try contradiction.
        -- destruct R as (R1 & R2 & d' & -> & R3).
           split; [cbn; lia|]. split; [cbn; lia|].
           exists (pre ++ d'). rewrite app_assoc. split; [reflexivity|].
           rewrite <- R3. f_equal. rewrite E0. unfold pre.
           rewrite <- !app_assoc. reflexivity.
        -- destruct R as (R1 & R2 & R3 & d' & ->).
           split; [exact R1|]. split; [cbn; lia|]. split; [cbn; lia|].
           exists (pre ++ d'). now rewrite app_assoc.
        -- destruct R as (R1 & R2 & d' & d'' & -> & R3).
           split; [cbn; lia|]. split; [cbn; lia|].
           exists (pre ++ d'), d''. rewrite app_assoc. split; [reflexivity|].
           rewrite <- R3. f_equal. rewrite E0. unfold pre.
           rewrite <- !app_assoc. reflexivity.
    + (* the fuel ran out while connecting *)
      injection Er as <- <-. exists d0. cbn [fst snd].
      split; [exact E0|]. split; [exact G0|].
      rewrite C0, S0. split; [lia|]. split; [reflexivity|].
      exists [], d0. rewrite app_nil_r. split; [reflexivity|].
      apply O0. reflexivity.
Qed.

(** The sleeps between attempts are of five seconds each. *)
Lemma retry_sleeps (d : History) :
  sleeps_of (filter is_retry_sleep d)
  = repeat (5 * Second) (count is_retry_sleep d).
Proof.
  unfold count. induction d as [|e d IH]; [reflexivity|].
  cbn [filter]. destruct (is_retry_sleep e) eqn:He; [|exact IH].
  destruct e; try discriminate He. cbn [is_retry_sleep] in He.
  apply Z.eqb_eq in He. subst. cbn [List.length repeat].
  change (sleeps_of (Sleep (5 * Second) :: filter is_retry_sleep d))
    with (5 * Second :: sleeps_of (filter is_retry_sleep d)).
  f_equal. exact IH.
Qed.

(** C7.  [reconnectWSClient] makes at most ten attempts (a connection, then
    a subscription); each failed attempt is followed by a sleep of five
    seconds before the next; it returns at the first subscription that
    succeeds; when ten attempts have failed it logs the critical record,
    exits with status 1, and has made ten attempts, no more.  It has no
    other way out: the model runs out of fuel only if, at some attempt, the
    endpoint refuses as many dials in a row as there is fuel.  So when every
    connection is obtained within the fuel the call ends, and if no
    subscription succeeds it ends in the exit after the tenth attempt. *)
Theorem reconnectWSClient_bound (W : World) (fuel : nat) (ep : string)
    (s : State) :
  exists d,
    history (snd (reconnectWSClient W fuel ep s)) = history s ++ d /\
    Forall (reconnect_effect ep) d /\
    (count is_SubscribeNewHead d <= 10)%nat /\
    (count is_retry_sleep d <= 10)%nat /\
    match fst (reconnectWSClient W fuel ep s) with
    | Ret (Some c, Some sub) =>
        count is_SubscribeNewHead d = S (count is_retry_sleep d) /\
        exists d', d = d' ++ [SubscribeNewHead c] /\
                   subscribeNewHead W (history s ++ d') c = inl sub
    | Exited code =>
        code = 1 /\
        count is_SubscribeNewHead d = 10%nat /\
        count is_retry_sleep d = 10%nat /\
        exists d', d = d' ++ reconnectFatal
    | OutOfFuel =>
        (count is_SubscribeNewHead d < 10)%nat /\
        count is_retry_sleep d = count is_SubscribeNewHead d /\
        exists d' d'', d = d' ++ d'' /\
                       refused W ep (history s ++ d') fuel = true
    | _ => False
    end /\
    ((forall h c, exists e, subscribeNewHead W h c = inr e) ->
     fst (reconnectWSClient W fuel ep s) <> OutOfFuel ->
     fst (reconnectWSClient W fuel ep s) = Exited 1) /\
    ((forall h, refused W ep h fuel = false) ->
     fst (reconnectWSClient W fuel ep s) <> OutOfFuel /\
     ((forall h c, exists e, subscribeNewHead W h c = inr e) ->
      fst (reconnectWSClient W fuel ep s) = Exited 1 /\
      count is_SubscribeNewHead d = 10%nat /\
      sleeps_of (filter is_retry_sleep d) = repeat (5 * Second) 10 /\
      exists d', d = d' ++ reconnectFatal)).
Proof.
  unfold reconnectWSClient.
  destruct (reconnectLoop_spec W fuel ep 10 s) as (d & E & F & R).
  exists d. split; [exact E|]. split; [exact F|].
  assert (Hsleeps : forall n, count is_retry_sleep d = n ->
            sleeps_of (filter is_retry_sleep d) = repeat (5 * Second) n).
  { intros n <-. apply retry_sleeps. }
  destruct (fst (reconnectLoop W fuel 10 ep s))
    as [[[c|] [sub|]]|code|msg|]; try contradiction.
  - destruct R as (R1 & R2 & R3). split; [exact R1|]. split; [lia|].
    split; [auto|].
    assert (Hno : (forall h c, exists e, subscribeNewHead W h c = inr e) ->
                  False).
    { intros Hfail. destruct R3 as (d' & _ & Hsub).
      destruct (Hfail (history s ++ d') c) as (e & He). congruence. }
    split; [intros Hfail _; contradiction (Hno Hfail)|].
    intros _. split; [discriminate|].
    intros Hfail. contradiction (Hno Hfail).
  - destruct R as (-> & R2 & R3 & R4). split; [lia|]. split; [lia|].
    split; [auto|]. split; [reflexivity|].
    intros _. split; [discriminate|]. intros _. auto.
  - destruct R as (R1 & R2 & d' & d'' & R3 & R4).
    split; [lia|]. split; [lia|].
    split; [eauto 6|]. split; [intros _ H; now contradiction H|].
    intros Hup. rewrite Hup in R4. discriminate R4.
Qed.

(** The sample world when no subscription succeeds: ten attempts, ten
    sleeps of five seconds, then the exit. *)
Definition subDownWorld : World :=
  Sample.world (payloadEnv "1") Sample.up Sample.up Sample.down specBuilder.

(** There every dial succeeds and no subscription does: the attempts are
    exhausted, whatever the fuel, as long as there is some. *)
Lemma reconnectWSClient_bound_witness :
  exists d,
    history (snd (reconnectWSClient subDownWorld 1 "ws://geth:8546"
                    (initial subDownWorld)))
      = history (initial subDownWorld) ++ d /\
    fst (reconnectWSClient subDownWorld 1 "ws://geth:8546"
           (initial subDownWorld)) = Exited 1 /\
    count is_SubscribeNewHead d = 10%nat /\
    sleeps_of (filter is_retry_sleep d) = repeat (5 * Second) 10.
Proof.
  destruct (reconnectWSClient_bound subDownWorld 1 "ws://geth:8546"
              (initial subDownWorld))
    as (d & E & _ & _ & _ & _ & _ & Hprogress).
  destruct Hprogress as [_ Hexit]; [intros h; reflexivity|].
  destruct Hexit as (Hr & Hc & Hs & _).
  { intros h c. eexists. reflexivity. }
  exists d. auto.
Defined.

Example reconnectWSClient_exhausted :
  let r := reconnectWSClient subDownWorld 4 "ws://geth:8546"
             (initial subDownWorld) in
  fst r = Exited 1 /\
  count is_SubscribeNewHead (history (snd r)) = 10%nat /\
  sleeps_of (history (snd r)) = repeat (5 * Second) 10.
Proof. vm_compute. repeat split. Qed.

(** ** Validation of the mode flags *)

Definition conflictCrit : Effect :=
  Log LvlCrit "Only one of --ethtransfer or --blob can be set at a time".

(** The checks of [main] that come before the validation of the mode
    flags all pass. *)
Definition required_config_ok (W : World) : bool :=
  isNil (dotenv W)
  && (String.eqb (getenv W "USE_PAYLOAD") ""
      || notNil (Strconv.ParseBool (getenv W "USE_PAYLOAD")))
  && (match Strconv.ParseBool (getenv W "USE_PAYLOAD") with
      | Some false => negb (String.eqb (getenv W "RPC_ENDPOINT") "")
      | _ => true
      end)
  && negb (String.eqb (getenv W "WS_ENDPOINT") "")
  && negb (String.eqb (getenv W "PRIVATE_KEY") "")
  && (String.eqb (getenv W "OFFSET") ""
      || notNil (Strconv.ParseUint (getenv W "OFFSET"))).

(** The only effects of the startup up to the validation. *)
Definition config_effect (e : Effect) : Prop :=
  match e with
  | GodotenvLoad | Log LvlCrit _ | OsExit 1 => True
  | _ => False
  end.

Ltac run_step :=
  match goal with
  | |- context [dotenv ?W] => destruct (dotenv W) eqn:?
  | |- context [String.eqb ?a ?b] => destruct (String.eqb a b) eqn:?
  | |- context [Strconv.ParseBool ?a] => destruct (Strconv.ParseBool a) as [[|]|] eqn:?
  | |- context [Strconv.ParseUint ?a] => destruct (Strconv.ParseUint a) eqn:?
  end; cbn.

Lemma readConfiguration_conflict (W : World) (s : State) :
  getenv W "ETH_TRANSFER" = "true" -> getenv W "BLOB" = "true" ->
  exists d,
    readConfiguration W s = (Exited 1, mkState (history s ++ d) (rng s)) /\
    Forall config_effect d /\
    (required_config_ok W = true -> d = [GodotenvLoad; conflictCrit; OsExit 1]).
Proof.
  intros He Hb.
  unfold readConfiguration, required_config_ok, parseBoolEnvVar,
    parseUintEnvVar, call, logCrit, osExit, when, bind, ask, emit, ret.
  rewrite He, Hb. cbn.
  repeat run_step.
  all: rewrite <- ?app_assoc; cbn; eexists; (split; [reflexivity|]).
  all: split; [repeat constructor | try discriminate; try reflexivity].
Qed.

Lemma readConfiguration_no_conflict (W : World) :
  String.eqb (getenv W "ETH_TRANSFER") "true"
  && String.eqb (getenv W "BLOB") "true" = false ->
  emits (fun e => e <> conflictCrit) (readConfiguration W).
Proof.
  intros H s.
  unfold readConfiguration, parseBoolEnvVar,
    parseUintEnvVar, call, logCrit, osExit, when, bind, ask, emit, ret.
  cbn.
  repeat run_step.
  all: try discriminate H.
  all: rewrite <- ?app_assoc; cbn; eexists; (split; [reflexivity|]).
  all: repeat constructor; discriminate.
Qed.

(** What the loop of [main] can add to the history. *)
Definition loop_effect (e : Effect) : Prop :=
  match e with
  | Log LvlCrit msg =>
      msg = "failed to reconnect WebSocket client after retries"
  | OsExit code => code = 1
  | GodotenvLoad | AuthenticateAddress | NewBidderClient _
  | DialContext _ _ | NewTimer _ => False
  | _ => True
  end.

Lemma reconnectWSClient_emits W fuel ep :
  emits loop_effect (reconnectWSClient W fuel ep).
Proof.
  intros s. unfold reconnectWSClient.
  destruct (reconnectLoop_spec W fuel ep 10 s) as (d & E & F & _).
  exists d. split; [exact E|]. eapply Forall_impl; [|exact F].
  intros [[]| | | | | | | | | | | | | | | | |]; cbn; intros;
    try contradiction; auto.
Qed.

Lemma handleHeader_emits W cfg v header :
  emits loop_effect (handleHeader W cfg v header).
Proof.
  unfold handleHeader. apply emits_bind.
  - unfold buildTransaction.
    destruct (String.eqb (ethTransfer cfg) "true");
      [apply emits_call; exact I|].
    destruct (String.eqb (blob cfg) "true");
      [apply emits_call; exact I | apply emits_ret].
  - intros [[signedTx blockNumber] err1]. apply emits_bind.
    + eapply emits_weaken; [|apply bidTransaction_emits].
      intros [[]| | | | | | | | | | | | | | | | |]; cbn; intros;
        try contradiction; auto.
    + intros err2. apply emits_ret.
Qed.

Lemma mainLoop_emits W fuel cfg :
  forall events v, emits loop_effect (mainLoop W fuel cfg v events).
Proof.
  induction events as [|ev events IH]; intros v; cbn [mainLoop].
  - apply emits_ret.
  - apply emits_bind; [apply emits_emit; exact I | intros _].
    destruct ev as [|e|header].
    + apply emits_bind; [apply emits_emit; exact I | intros _].
      apply emits_ret.
    + apply emits_bind; [apply emits_emit; exact I | intros _].
      apply emits_bind; [apply reconnectWSClient_emits|].
      intros [c sb]. apply IH.
    + apply emits_bind; [apply handleHeader_emits|].
      intros v'. apply IH.
Qed.

Lemma connectRPC_emits W usePayload ep timeout :
  emits (fun e => e <> conflictCrit) (connectRPC W usePayload ep timeout).
Proof.
  intros s. destruct usePayload.
  - exists []. cbn. rewrite app_nil_r. auto.
  - rewrite connectRPC_dials.
    destruct (connectRPCLoop_spec W ep timeout 5 0 s)
      as (failed & d & E & F & _).
    assert (G : Forall (fun e => e <> conflictCrit) d).
    { eapply Forall_impl; [|exact F]. intros e He ->. exact He. }
    destruct (connectRPCLoop W 5 0 ep timeout s) as [[[c|]|code|msg|] s'];
      cbn [fst snd history] in *; rewrite E.
    + exists (d ++ [Log LvlInfo "(rpc) geth client connected"]).
      rewrite app_assoc. split; [reflexivity|].
      apply Forall_app. split; [exact G|]. repeat constructor. discriminate.
    + exists (d ++ [Log LvlError "failed to connect to RPC client";
                    Log LvlInfo "(rpc) geth client connected"]).
      rewrite app_assoc. split; [reflexivity|].
      apply Forall_app. split; [exact G|]. repeat constructor; discriminate.
    + exists d. auto.
    + exists d. auto.
    + exists d. auto.
Qed.

Lemma connectWSClient_emits W fuel ep :
  emits (fun e => e <> conflictCrit) (connectWSClient W fuel ep).
Proof.
  intros s. destruct (connectWSClient_spec W ep fuel s) as (d & E & F & _).
  exists d. split; [exact E|]. eapply Forall_impl; [|exact F].
  intros e He ->. exact He.
Qed.

Lemma mainLoop_no_conflict W fuel cfg v events :
  emits (fun e => e <> conflictCrit) (mainLoop W fuel cfg v events).
Proof.
  eapply emits_weaken; [|apply mainLoop_emits].
  intros e He ->. cbn in He. discriminate He.
Qed.

(** The conflict record is written only by the validation of the flags. *)
Lemma main_no_conflict (W : World) (fuel : nat) (events : list Event) :
  String.eqb (getenv W "ETH_TRANSFER") "true"
  && String.eqb (getenv W "BLOB") "true" = false ->
  emits (fun e => e <> conflictCrit) (main W fuel events).
Proof.
  intros H. unfold main.
  apply emits_bind; [apply readConfiguration_no_conflict, H | intros env].
  apply emits_bind; [apply emits_emit; discriminate | intros _].
  apply emits_bind; [apply emits_call; discriminate | intros [acct e1]].
  apply emits_bind.
  { apply emits_when. unfold logCrit. apply emits_bind;
      [apply emits_emit; discriminate | intros _; apply emits_osExit; discriminate]. }
  intros _.
  apply emits_bind; [apply emits_call; discriminate | intros e2].
  apply emits_bind.
  { apply emits_when. unfold logCrit. apply emits_bind;
      [apply emits_emit; discriminate | intros _; apply emits_osExit; discriminate]. }
  intros _.
  apply emits_bind; [apply emits_emit; discriminate | intros _].
  apply emits_bind; [apply connectRPC_emits | intros _].
  apply emits_bind; [apply connectWSClient_emits | intros [c e3]].
  apply emits_bind.
  { apply emits_when. unfold logCrit. apply emits_bind;
      [apply emits_emit; discriminate | intros _; apply emits_osExit; discriminate]. }
  intros _.
  apply emits_bind; [apply emits_emit; discriminate | intros _].
  apply emits_bind.
  { unfold subscribe. destruct c;
      [apply emits_call; discriminate | apply emits_panic]. }
  intros r.
  apply emits_bind.
  { destruct r; [apply emits_ret|].
    apply emits_bind; [|intros; apply emits_ret].
    unfold logCrit. apply emits_bind;
      [apply emits_emit; discriminate | intros _; apply emits_osExit; discriminate]. }
  intros [sb e4].
  apply emits_bind; [apply emits_emit; discriminate | intros _].
  apply mainLoop_no_conflict.
Qed.

(** The run has reached the loop of [main]: the timer was created or the
    [select] has delivered an event. *)
Definition entered_loop (h : History) : bool :=
  existsb (fun e => match e with
                    | NewTimer _ | Select _ => true
                    | _ => false
                    end) h.

Lemma config_effect_quiet (d : History) :
  Forall config_effect d ->
  count is_network d = 0%nat /\ entered_loop d = false.
Proof.
  induction 1 as [|e d He _ [IH1 IH2]]; [split; reflexivity|].
  unfold count, entered_loop in *. cbn [filter existsb].
  destruct e as [[]| | | | | | | | | | | | | | | | |]; cbn in He;
    try contradiction; cbn; auto.
Qed.

(** C6, amended.  With both mode flags set to "true" the run ends in
    [os.Exit(1)] during the reading of the configuration: nothing went over
    the network and the loop was not entered.  The fatal record is the one of
    the flag conflict whenever the checks that come before it pass.  So a
    run that enters the loop never has both modes active. *)
Theorem main_mode_conflict (W : World) (fuel : nat) (events : list Event) :
  (getenv W "ETH_TRANSFER" = "true" -> getenv W "BLOB" = "true" ->
   fst (main W fuel events (initial W)) = Exited 1 /\
   Forall config_effect (history (snd (main W fuel events (initial W)))) /\
   count is_network (history (snd (main W fuel events (initial W)))) = 0%nat /\
   entered_loop (history (snd (main W fuel events (initial W)))) = false /\
   (required_config_ok W = true ->
    history (snd (main W fuel events (initial W)))
    = [GodotenvLoad; conflictCrit; OsExit 1])) /\
  (entered_loop (history (snd (main W fuel events (initial W)))) = true ->
   ~ (getenv W "ETH_TRANSFER" = "true" /\ getenv W "BLOB" = "true")).
Proof.
  assert (Hboth :
    getenv W "ETH_TRANSFER" = "true" -> getenv W "BLOB" = "true" ->
    fst (main W fuel events (initial W)) = Exited 1 /\
    Forall config_effect (history (snd (main W fuel events (initial W)))) /\
    count is_network (history (snd (main W fuel events (initial W)))) = 0%nat /\
    entered_loop (history (snd (main W fuel events (initial W)))) = false /\
    (required_config_ok W = true ->
     history (snd (main W fuel events (initial W)))
     = [GodotenvLoad; conflictCrit; OsExit 1])).
  { intros He Hb.
    destruct (readConfiguration_conflict W (initial W) He Hb)
      as (d & E & F & V).
    assert (Hm : main W fuel events (initial W)
                 = (Exited 1, mkState d (rng (initial W)))).
    { unfold main. unfold bind at 1. rewrite E. reflexivity. }
    rewrite Hm. cbn [fst snd history].
    destruct (config_effect_quiet d F) as [Q1 Q2]. repeat split; auto. }
  split; [exact Hboth|].
  intros Hloop [He Hb]. destruct (Hboth He Hb) as (_ & _ & _ & Q & _).
  congruence.
Qed.

Definition conflictWorld : World :=
  Sample.world (("BLOB", "true") :: payloadEnv "1")
    Sample.up Sample.up Sample.up specBuilder.

Lemma main_mode_conflict_witness :
  fst (run conflictWorld [NewHeader head100]) = Exited 1 /\
  history (snd (run conflictWorld [NewHeader head100]))
  = [GodotenvLoad; conflictCrit; OsExit 1].
Proof.
  destruct (main_mode_conflict conflictWorld 100 [NewHeader head100])
    as [H _].
  destruct H as (H1 & _ & _ & _ & H2); [reflexivity | reflexivity |].
  split; [exact H1 | apply H2; reflexivity].
Defined.

(** C6, as stated, fails: with both flags set and no [WS_ENDPOINT] the
    startup is fatal, but the record is the one of the missing endpoint;
    the conflict is never reported. *)
Definition conflictNoEndpointWorld : World :=
  Sample.world [("PRIVATE_KEY", "4c0883a6"); ("ETH_TRANSFER", "true");
                ("BLOB", "true")]
    Sample.up Sample.up Sample.up specBuilder.

Lemma mode_conflict_counterexample :
  getenv conflictNoEndpointWorld "ETH_TRANSFER" = "true" /\
  getenv conflictNoEndpointWorld "BLOB" = "true" /\
  fst (run conflictNoEndpointWorld []) = Exited 1 /\
  history (snd (run conflictNoEndpointWorld []))
  = [GodotenvLoad;
     Log LvlCrit "WS_ENDPOINT environment variable is required";
     OsExit 1] /\
  ~ In conflictCrit (history (snd (run conflictNoEndpointWorld []))).
Proof.
  vm_compute. repeat split.
  intros [H|[H|[H|[]]]]; discriminate H.
Qed.

(** ** No mode configured *)

Lemma fst_bind_ret_panic {A B} (m : M A) (f : A -> B) s :
  is_panic (fst (bind m (fun a => ret (f a)) s)) = is_panic (fst (m s)).
Proof. unfold bind, ret. now destruct (m s) as [[a|c|msg|] s']. Qed.

Lemma not_both_true (a b : string) :
  ~ (a = "true" /\ b = "true") ->
  String.eqb a "true" && String.eqb b "true" = false.
Proof.
  intros H. destruct (String.eqb_spec a "true"), (String.eqb_spec b "true");
    cbn; auto. contradiction H. auto.
Qed.

(** C10, amended.  The validation reports the conflict only when both flags are
    "true".  With neither mode configured an iteration builds nothing, logs
    that the transaction was not signed, and goes on to the submission with
    the nil transaction: in payload mode [sendPreconfBid] is entered (it
    seeds the random source) and panics on the nil transaction before any
    bid; otherwise the nil transaction is handed to the bundle relay with
    block 0, and the iteration panics after that. *)
Theorem no_mode_configured (W : World) (fuel : nat) (events : list Event)
    (cfg : Config) (v : Vars) (header : Header) (s : State) :
  (In conflictCrit (history (snd (main W fuel events (initial W)))) ->
   getenv W "ETH_TRANSFER" = "true" /\ getenv W "BLOB" = "true") /\
  (mode_configured cfg = false ->
   exists d,
     history (snd (handleHeader W cfg v header s)) = history s ++ d /\
     count is_build d = 0%nat /\
     In notSignedError d /\
     is_panic (fst (handleHeader W cfg v header s)) = true /\
     bids_of d = [] /\
     (if usePayload cfg
      then List.length (seeds_of d) = 1%nat /\ bundles_of d = []
      else bundles_of d = [(None, 0)] /\ seeds_of d = [])).
Proof.
  split.
  - intros Hin.
    destruct (String.eqb_spec (getenv W "ETH_TRANSFER") "true") as [He|He];
      [destruct (String.eqb_spec (getenv W "BLOB") "true") as [Hb|Hb]|];
      [auto| |].
    all: exfalso.
    all: assert (H : String.eqb (getenv W "ETH_TRANSFER") "true"
                     && String.eqb (getenv W "BLOB") "true" = false)
           by (apply not_both_true; intros [? ?]; contradiction).
    all: destruct (main_no_conflict W fuel events H (initial W))
           as (d & E & F).
    all: rewrite E in Hin; cbn [history initial app] in Hin.
    all: rewrite Forall_forall in F; exact (F _ Hin eq_refl).
  - intros Hmode.
    assert (Hh : handleHeader W cfg v header s
                 = bind (bidTransaction W cfg (None, 0, err v))
                     (fun err2 => ret (mkVars (wsClient v) (sub v) err2)) s).
    { unfold handleHeader. unfold bind at 1.
      rewrite (buildTransaction_unconfigured W cfg v s Hmode). reflexivity. }
    rewrite Hh, fst_bind_ret_panic, history_bind_ret.
    destruct (bidTransaction_nil W cfg 0 (err v) s)
      as (d & E & Hlog & Hpanic & Hbids & Hsub).
    exists d. split; [exact E|]. split; [|auto].
    destruct (bidTransaction_emits W cfg None 0 (err v) s) as (d' & E' & F').
    rewrite E in E'. apply app_inv_head in E'. subst d'.
    apply count_none. eapply Forall_impl; [|exact F'].
    intros [[]| | | | | | | | | | | | | | | | |]; cbn; intros;
      try contradiction; auto.
Qed.

(** A run with neither flag set, in payload mode, on one head. *)
Definition noModeWorld : World :=
  Sample.world [("WS_ENDPOINT", "ws://geth:8546"); ("PRIVATE_KEY", "4c0883a6")]
    Sample.up Sample.up Sample.up specBuilder.

Example no_mode_run :
  let r := run noModeWorld [NewHeader head100; NewHeader head101] in
  is_panic (fst r) = true /\
  count is_build (history (snd r)) = 0%nat /\
  entered_loop (history (snd r)) = true /\
  List.length (seeds_of (history (snd r))) = 1%nat /\
  bids_of (history (snd r)) = [].
Proof. vm_compute. repeat split. Qed.

(** A run with neither flag set, in relay mode, on one head. *)
Definition noModeRelayWorld : World :=
  Sample.world [("USE_PAYLOAD", "false"); ("RPC_ENDPOINT", "http://geth:8545");
                ("WS_ENDPOINT", "ws://geth:8546"); ("PRIVATE_KEY", "4c0883a6")]
    Sample.up Sample.up Sample.up specBuilder.

(** The effects with which [sendPreconfBid] begins. *)
Definition is_bid_step (e : Effect) : bool :=
  match e with
  | TimeNow | RandSeed _ | RandFloat64 | SendBid _ => true
  | _ => false
  end.

(** C10, as stated, fails: with neither flag set and [USE_PAYLOAD=false]
    the validation passes and nothing is built, but the iteration does not
    reach the bid-submission step: it hands the nil transaction to the
    bundle relay and panics before [sendPreconfBid] is entered. *)
Lemma no_mode_relay_counterexample :
  let r := run noModeRelayWorld [NewHeader head100] in
  entered_loop (history (snd r)) = true /\
  count is_build (history (snd r)) = 0%nat /\
  bundles_of (history (snd r)) = [(None, 0)] /\
  count is_bid_step (history (snd r)) = 0%nat /\
  fst r = Panicked nilDereference.
Proof. vm_compute. repeat split. Qed.

(** A builder that fails: nil transaction, block 0, an error. *)
Definition failingBuilder (_ : History) (_ : Z) : BuildResult :=
  (None, 0, Some "nonce too low").

Definition failingRelayWorld : World :=
  Sample.world (relayEnv "1") Sample.up Sample.up Sample.up failingBuilder.

Definition failingPayloadWorld : World :=
  Sample.world (payloadEnv "1") Sample.up Sample.up Sample.up failingBuilder.

(** C5, the code at the failing input.  When the builder returns a nil
    transaction the iteration logs that it was not signed and goes on all
    the same: in relay mode the nil transaction is handed to the bundle
    relay, in payload mode [sendPreconfBid] is entered with it; either way
    the run then panics on the nil pointer, and the head that follows is
    never processed. *)
Theorem nil_transaction_not_skipped :
  let relay := run failingRelayWorld [NewHeader head100; NewHeader head101] in
  let payload :=
    run failingPayloadWorld [NewHeader head100; NewHeader head101] in
  (count (fun e => match e with
                   | Log LvlError msg =>
                       String.eqb msg "Transaction was not signed or created."
                   | _ => false
                   end) (history (snd relay)) = 1%nat /\
   bundles_of (history (snd relay)) = [(None, 0)] /\
   is_panic (fst relay) = true /\
   count (fun e => match e with Select _ => true | _ => false end)
     (history (snd relay)) = 1%nat) /\
  (count (fun e => match e with
                   | Log LvlError msg =>
                       String.eqb msg "Transaction was not signed or created."
                   | _ => false
                   end) (history (snd payload)) = 1%nat /\
   List.length (seeds_of (history (snd payload))) = 1%nat /\
   bids_of (history (snd payload)) = [] /\
   is_panic (fst payload) = true).
Proof. vm_compute. repeat split. Qed.

(** ** The amount of a bid *)



(** ** Rounding in binary64

    The operations of [float64] round to the nearest number of the format.
    What the bounds on the amount need of the rounding: a number of the
    format that is at most (at least) the exact result of an operation on
    positive numbers is at most (at least) the rounded result. *)

Module Binary64.















(** *** Order *)









Section Rounded.

Variables (M : positive) (E : Z).
Let e1 : Z := fexp prec emax (Zpos (digits2_pos M) + E).
Let p : Z := e1 - E.
Hypothesis Hp : 0 <= p.





End Rounded.


(** *** The primitive operations on positive numbers *)











End Binary64.

(** ** The amount is within the range *)

Section Amount.

Import Binary64.









End Amount.



(** * The rest of [cmd/getPreconf.go] *)

(** ** [maskEndpoint] *)

Definition maskEndpoint (rpcEndpoint : string) : string :=
  if (5 <? String.length rpcEndpoint)%nat
  then (String.substring 0 5 rpcEndpoint ++ "*****")%string
  else "*****".

Lemma length_append (a b : string) :
  String.length (a ++ b)%string = (String.length a + String.length b)%nat.
Proof. induction a as [|c a IH]; cbn; congruence. Qed.

Lemma length_substring_0 (n : nat) (s : string) :
  (n <= String.length s)%nat -> String.length (String.substring 0 n s) = n.
Proof.
  revert s. induction n as [|n IH]; intros [|c s] H; cbn in *;
    try reflexivity; try lia.
  rewrite IH; [reflexivity | lia].
Qed.

Lemma substring_0_append (p r : string) :
  String.substring 0 (String.length p) (p ++ r)%string = p.
Proof.
  induction p as [|c p IH]; cbn.
  - now destruct r.
  - now rewrite IH.
Qed.

(** X1.  The mask is five asterisks after at most the first five bytes of the
    endpoint: it is ten bytes long for an endpoint of more than five bytes
    and does not depend on what follows the fifth byte; an endpoint of five
    bytes or fewer, the empty one too, is hidden whole. *)
Theorem maskEndpoint_discloses_five_bytes :
  (forall e, (String.length e <= 5)%nat -> maskEndpoint e = "*****") /\
  (forall e, (5 < String.length e)%nat ->
     String.length (maskEndpoint e) = 10%nat /\
     maskEndpoint e = (String.substring 0 5 e ++ "*****")%string) /\
  (forall p r1 r2,
     String.length p = 5%nat -> r1 <> "" -> r2 <> "" ->
     maskEndpoint (p ++ r1) = maskEndpoint (p ++ r2) /\
     maskEndpoint (p ++ r1) = (p ++ "*****")%string).
Proof.
  split; [|split].
  - intros e H. unfold maskEndpoint.
    destruct (Nat.ltb_spec 5 (String.length e)); [lia | reflexivity].
  - intros e H. unfold maskEndpoint.
    destruct (Nat.ltb_spec 5 (String.length e)); [|lia].
    split; [|reflexivity].
    rewrite length_append, length_substring_0 by lia. reflexivity.
  - intros p r1 r2 Hp H1 H2.
    assert (Hmask : forall r, r <> "" ->
              maskEndpoint (p ++ r) = (p ++ "*****")%string).
    { intros r Hr. unfold maskEndpoint. rewrite length_append, Hp.
      destruct r as [|c r]; [congruence|]. cbn [String.length].
      destruct (Nat.ltb_spec 5 (5 + S (String.length r))); [|lia].
      rewrite <- Hp at 1. now rewrite substring_0_append. }
    rewrite (Hmask r1 H1), (Hmask r2 H2). auto.
Qed.

(** ** [parseUintEnvVar] *)

Definition is_digit (c : ascii) : bool :=
  match c with
  | "0" | "1" | "2" | "3" | "4" | "5" | "6" | "7" | "8" | "9" => true
  | _ => false
  end%char.

Fixpoint all_digits (s : string) : bool :=
  match s with
  | EmptyString => true
  | String c s' => is_digit c && all_digits s'
  end.

Lemma uint_of_string_digits (s : string) (u : uint) :
  NilEmpty.uint_of_string s = Some u -> all_digits s = true.
Proof.
  revert u. induction s as [|c s IH]; intros u H; [reflexivity|].
  cbn in H. destruct (NilEmpty.uint_of_string s) as [u'|] eqn:E;
    [|discriminate H].
  cbn [all_digits]. rewrite (IH u' eq_refl), andb_true_r.
  destruct (uint_of_char_spec _ _ _ H)
    as [[-> _]|[[-> _]|[[-> _]|[[-> _]|[[-> _]|[[-> _]|[[-> _]|[[-> _]|
        [[-> _]|[-> _]]]]]]]]]]; reflexivity.
Qed.

Lemma FormatInt_nonneg_parses (n : Z) :
  0 <= n ->
  exists u, NilEmpty.uint_of_string (Strconv.FormatInt n) = Some u /\
            u <> Nil /\ Z.of_N (N.of_uint u) = n.
Proof.
  intros Hn. unfold Strconv.FormatInt. destruct n as [|p|p]; [| |lia].
  - exists (D0 Nil). repeat split. discriminate.
  - exists (Pos.to_uint p). cbn [Z.to_int NilZero.string_of_int].
    pose proof (DecimalPos.Unsigned.to_uint_nonnil p) as Hnil.
    unfold NilZero.string_of_uint.
    destruct (Pos.to_uint p) eqn:E; try congruence;
      rewrite <- E, NilEmpty.usu; (split; [reflexivity|]);
      (split; [congruence|]);
      unfold N.of_uint; now rewrite DecimalPos.Unsigned.of_to.
Qed.

Lemma ParseUint_some (value : string) (z : Z) :
  Strconv.ParseUint value = Some z ->
  Int.in_uint64 z /\ value <> "" /\ all_digits value = true.
Proof.
  unfold Strconv.ParseUint.
  destruct (NilEmpty.uint_of_string value) as [u|] eqn:E; [|discriminate].
  pose proof (uint_of_string_digits value u E) as Hd.
  assert (Hne : u <> Nil -> value <> "").
  { intros Hu ->. cbn in E. congruence. }
  destruct u eqn:Eu; [discriminate|..].
  all: match goal with
       | |- context [?a <=? ?b] => destruct (Z.leb_spec a b)
       end; [|discriminate].
  all: intros [= <-]; split;
    [unfold Int.in_uint64; split;
       [first [apply N2Z.is_nonneg | lia] | assumption]|].
  all: split; [apply Hne; discriminate | exact Hd].
Qed.

(** X2.  [parseUintEnvVar] accepts only non-empty strings of decimal digits
    whose value fits 64 bits: an accepted value is within [0, 2^64 - 1] and
    its text is digits only, so the empty string, a sign, a blank or a
    fraction is an error; with an error the value is 0; and every 64-bit
    value written in decimal is accepted and read back as itself. *)
Theorem parseUintEnvVar_accepts_uint64 (name value : string) :
  (snd (parseUintEnvVar name value) = None ->
   Int.in_uint64 (fst (parseUintEnvVar name value)) /\
   value <> "" /\ all_digits value = true) /\
  (snd (parseUintEnvVar name value) <> None ->
   fst (parseUintEnvVar name value) = 0) /\
  (forall n, Int.in_uint64 n ->
     parseUintEnvVar name (Strconv.FormatInt n) = (n, None)).
Proof.
  split; [|split].
  - unfold parseUintEnvVar.
    destruct (Strconv.ParseUint value) as [z|] eqn:E; [|discriminate].
    intros _. cbn [fst]. now apply ParseUint_some.
  - unfold parseUintEnvVar.
    destruct (Strconv.ParseUint value); cbn; [congruence | reflexivity].
  - intros n [Hlo Hhi]. unfold parseUintEnvVar, Strconv.ParseUint.
    destruct (FormatInt_nonneg_parses n Hlo) as (u & -> & Hu & Hv).
    rewrite Hv. destruct (Z.leb_spec n Int.max_uint64); [|lia].
    destruct u; try reflexivity. congruence.
Qed.

(** ** The backoff of the RPC dialer beyond its exact range *)

Lemma wrap_int64_bounds (z : Z) : Int.in_int64 (Int.wrap_int64 z).
Proof.
  unfold Int.in_int64, Int.min_int64, Int.max_int64, Int.wrap_int64.
  pose proof (Z.mod_pos_bound (z + 2 ^ 63) (2 ^ 64)). lia.
Qed.

(** X3.  The sleep after failed attempt [k] is the exponential [10 * 2^k] up to
    attempt 59 and no further: from attempt 60 on the product does not fit
    [int64], and what is slept is a wrapped value below [10 * 2^k]. *)
Theorem backoff_exact_up_to_59 (k : Z) :
  (0 <= k < 60 -> backoff k = 10 * 2 ^ k) /\
  (60 <= k -> backoff k < 10 * 2 ^ k /\ Int.in_int64 (backoff k)).
Proof.
  split; [apply backoff_exact|].
  intros Hk. pose proof (wrap_int64_bounds (10 * pow2Duration k)) as Hb.
  split; [|exact Hb]. unfold backoff.
  assert (2 ^ 60 <= 2 ^ k) by (apply Z.pow_le_mono_r; lia).
  unfold Int.in_int64, Int.max_int64 in Hb.
  change (2 ^ 63) with 9223372036854775808 in Hb.
  change (2 ^ 60) with 1152921504606846976 in *. lia.
Qed.

(** ** What [main] knows once the configuration is read *)

Ltac eqb_only :=
  repeat match goal with
         | H : String.eqb _ _ = false |- _ => apply String.eqb_neq in H
         | H : String.eqb _ _ = true |- _ => apply String.eqb_eq in H
         end.

Ltac eqb_facts :=
  eqb_only;
  repeat match goal with
         | H : Strconv.ParseUint _ = Some _ |- _ => apply ParseUint_some in H
         end.

(** X4.  The reading of the configuration either returns, having done nothing
    but load the [.env] file, or exits with status 1 after one critical
    record; it never panics.  When it returns, the streaming endpoint, the
    signing key and the bidder address are not empty, the offset fits 64
    bits, the RPC endpoint is present exactly when the payload is not used,
    the two mode flags are not both "true", and an unset [USE_PAYLOAD],
    [OFFSET] or [BIDDER_ADDRESS] has its default: true, 1 and
    ["mev-commit-bidder:13524"]. *)
Theorem readConfiguration_validates (W : World) (s : State) :
  match fst (readConfiguration W s) with
  | Ret env =>
      snd (readConfiguration W s)
        = mkState (history s ++ [GodotenvLoad]) (rng s) /\
      dotenv W = None /\
      (WS_ENDPOINT env = getenv W "WS_ENDPOINT" /\ WS_ENDPOINT env <> "") /\
      (PRIVATE_KEY env = getenv W "PRIVATE_KEY" /\ PRIVATE_KEY env <> "") /\
      BIDDER_ADDRESS env <> "" /\
      Int.in_uint64 (OFFSET env) /\
      (USE_PAYLOAD env = false ->
       RPC_ENDPOINT env = getenv W "RPC_ENDPOINT" /\ RPC_ENDPOINT env <> "") /\
      (USE_PAYLOAD env = true -> RPC_ENDPOINT env = "") /\
      (ETH_TRANSFER env = getenv W "ETH_TRANSFER" /\
       BLOB env = getenv W "BLOB" /\
       ~ (ETH_TRANSFER env = "true" /\ BLOB env = "true")) /\
      (getenv W "USE_PAYLOAD" = "" -> USE_PAYLOAD env = true) /\
      (getenv W "OFFSET" = "" -> OFFSET env = 1) /\
      (getenv W "BIDDER_ADDRESS" = "" ->
       BIDDER_ADDRESS env = "mev-commit-bidder:13524")
  | Exited code =>
      code = 1 /\
      exists msg,
        history (snd (readConfiguration W s))
        = history s ++ [GodotenvLoad; Log LvlCrit msg; OsExit 1]
  | _ => False
  end.
Proof.
  unfold readConfiguration, parseBoolEnvVar,
    parseUintEnvVar, call, logCrit, osExit, when, bind, ask, emit, ret.
  cbn.
  repeat run_step.
  all: rewrite <- ?app_assoc; cbn [app].
  all: try (split; [reflexivity | eexists; reflexivity]).
  all: eqb_facts.
  all: repeat split; auto; try congruence; try discriminate; try tauto.
  all: try (unfold Int.in_uint64, Int.max_uint64; lia).
  all: try (intros [? ?]; congruence).
  all: match goal with H : Int.in_uint64 _ /\ _ |- _ => destruct H as [[? ?] _] end;
    assumption.
Qed.

(** One of the checks that precede the validation of the mode flags
    fails. *)
Definition configuration_invalid (W : World) : Prop :=
  dotenv W <> None \/
  (getenv W "USE_PAYLOAD" <> "" /\
   Strconv.ParseBool (getenv W "USE_PAYLOAD") = None) \/
  (Strconv.ParseBool (getenv W "USE_PAYLOAD") = Some false /\
   getenv W "RPC_ENDPOINT" = "") \/
  getenv W "WS_ENDPOINT" = "" \/
  getenv W "PRIVATE_KEY" = "" \/
  (getenv W "OFFSET" <> "" /\ Strconv.ParseUint (getenv W "OFFSET") = None).

Lemma ParseBool_empty : Strconv.ParseBool "" = None.
Proof. reflexivity. Qed.

Lemma readConfiguration_invalid (W : World) (s : State) :
  configuration_invalid W ->
  exists msg,
    readConfiguration W s
    = (Exited 1,
       mkState (history s ++ [GodotenvLoad; Log LvlCrit msg; OsExit 1])
         (rng s)).
Proof.
  intros H.
  unfold readConfiguration, parseBoolEnvVar,
    parseUintEnvVar, call, logCrit, osExit, when, bind, ask, emit, ret.
  cbn.
  repeat run_step.
  all: rewrite <- ?app_assoc; cbn [app].
  all: try (eexists; reflexivity).
  all: exfalso; eqb_only.
  all: destruct H as [H|[[H1 H2]|[[H1 H2]|[H|[H|[H1 H2]]]]]];
    try congruence.
  all: try (rewrite Heqb in *; rewrite ParseBool_empty in *; congruence).
Qed.

(** X5.  A missing or malformed required setting is fatal at once: when the
    [.env] file does not load, [USE_PAYLOAD] or [OFFSET] does not parse, or
    [RPC_ENDPOINT] (with the payload not used), [WS_ENDPOINT] or
    [PRIVATE_KEY] is empty, the run is the loading of the file, one critical
    record and [os.Exit(1)]: no collaborator is contacted and the loop is
    not entered. *)
Theorem main_invalid_configuration_is_fatal (W : World) (fuel : nat)
    (events : list Event) :
  configuration_invalid W ->
  fst (main W fuel events (initial W)) = Exited 1 /\
  (exists msg,
     history (snd (main W fuel events (initial W)))
     = [GodotenvLoad; Log LvlCrit msg; OsExit 1]) /\
  count is_network (history (snd (main W fuel events (initial W)))) = 0%nat /\
  entered_loop (history (snd (main W fuel events (initial W)))) = false.
Proof.
  intros H.
  destruct (readConfiguration_invalid W (initial W) H) as (msg & E).
  assert (Hm : main W fuel events (initial W)
               = (Exited 1,
                  mkState [GodotenvLoad; Log LvlCrit msg; OsExit 1]
                    (rng (initial W)))).
  { unfold main. unfold bind at 1. rewrite E. reflexivity. }
  rewrite Hm. cbn [fst snd history]. repeat split. eauto.
Qed.

Lemma main_invalid_configuration_is_fatal_witness :
  fst (main conflictNoEndpointWorld 3 [NewHeader head100]
         (initial conflictNoEndpointWorld)) = Exited 1 /\
  count is_network
    (history (snd (main conflictNoEndpointWorld 3 [NewHeader head100]
                     (initial conflictNoEndpointWorld)))) = 0%nat.
Proof.
  destruct (main_invalid_configuration_is_fatal conflictNoEndpointWorld 3
              [NewHeader head100]) as (H1 & _ & H2 & _).
  - right. right. right. left. reflexivity.
  - split; assumption.
Defined.

(** ** [connectWSClient] *)

Definition is_NewGethClient (e : Effect) : bool :=
  match e with NewGethClient _ => true | _ => false end.

(** X6.  [connectWSClient] dials until a dial succeeds: it sleeps ten seconds
    after each failed dial, returns the connection of the first dial that
    succeeds with a nil error, and has no other way out; only a run of
    failures longer than the fuel of the model does not return. *)
Theorem connectWSClient_retries_until_connected (W : World) (ep : string) :
  forall (fuel : nat) (s : State),
  exists (failed : nat) (d : History),
    history (snd (connectWSClient W fuel ep s)) = history s ++ d /\
    Forall (ws_effect ep) d /\
    sleeps_of d = repeat (10 * Second) failed /\
    match fst (connectWSClient W fuel ep s) with
    | Ret (Some c, None) =>
        (failed < fuel)%nat /\
        count is_NewGethClient d = S failed /\
        exists d', d = d' ++ [NewGethClient ep] /\
                   newGethClient W (history s ++ d') ep = inl c
    | OutOfFuel => failed = fuel /\ count is_NewGethClient d = fuel
    | _ => False
    end.
Proof.
  induction fuel as [|fuel IH]; intros s.
  - exists 0%nat, []. cbn. rewrite app_nil_r. auto.
  - destruct (connectWSClient W (S fuel) ep s) as [r s'] eqn:Er.
    cbn [connectWSClient] in Er.
    unfold bind at 1, call, bind, ask, emit, ret in Er.
    cbn [fst snd history rng] in Er.
    destruct (newGethClient W (history s) ep) as [c|e] eqn:Ed.
    + injection Er as <- <-. exists 0%nat, [NewGethClient ep].
      cbn [fst snd history]. split; [reflexivity|].
      split; [repeat constructor|]. split; [reflexivity|].
      split; [lia|]. split; [reflexivity|].
      exists []. rewrite app_nil_r. auto.
    + unfold logWarn, timeSleep, bind, emit in Er.
      cbn [fst snd history rng] in Er.
      match type of Er with
      | connectWSClient W fuel ep ?s1 = _ =>
          destruct (IH s1) as (failed & d & E & F & Sl & R)
      end.
      rewrite Er in E, R. cbn [fst snd history] in *.
      set (pre := [NewGethClient ep;
                   Log LvlWarn "failed to connect to websocket client";
                   Sleep (10 * Second)]).
      exists (S failed), (pre ++ d).
      rewrite E, <- !app_assoc. split; [reflexivity|].
      split; [apply Forall_app; split; [repeat constructor | exact F]|].
      split; [rewrite sleeps_of_app, Sl; reflexivity|].
      rewrite count_app.
      destruct r as [[[c|] [e'|]]|code|msg|]; try contradiction.
      * destruct R as (R1 & R2 & d' & -> & R3).
        split; [lia|]. split; [rewrite R2; reflexivity|].
        exists (pre ++ d'). rewrite app_assoc. split; [reflexivity|].
        rewrite <- R3. f_equal. unfold pre. rewrite <- !app_assoc.
        reflexivity.
      * destruct R as (-> & R2). split; [reflexivity|].
        rewrite R2. reflexivity.
Qed.

(** X7.  Enough fuel gives the connection: if the endpoint accepts every dial
    from the [k]-th dial of the run on, [connectWSClient] returns a
    connection and a nil error, whatever happened before, as soon as the
    fuel covers the dials still to fail. *)
Theorem connectWSClient_returns (W : World) (ep : string) (k : nat) :
  (forall h, (k <= count is_NewGethClient h)%nat ->
             exists c, newGethClient W h ep = inl c) ->
  forall (fuel : nat) (s : State),
    (k - count is_NewGethClient (history s) < fuel)%nat ->
    exists c, fst (connectWSClient W fuel ep s) = Ret (Some c, None).
Proof.
  intros Hup. induction fuel as [|fuel IH]; intros s Hfuel; [lia|].
  cbn [connectWSClient].
  unfold bind at 1, call, bind, ask, emit, ret. cbn [fst snd history rng].
  destruct (newGethClient W (history s) ep) as [c|e] eqn:Ed.
  - exists c. reflexivity.
  - unfold logWarn, timeSleep, bind, emit. cbn [fst snd history rng].
    assert (Hk : (count is_NewGethClient (history s) < k)%nat).
    { destruct (Nat.lt_ge_cases (count is_NewGethClient (history s)) k)
        as [Hlt|Hge]; [exact Hlt|].
      destruct (Hup _ Hge) as (c & Hc). congruence. }
    match goal with
    | |- context [connectWSClient W fuel ep ?s1] =>
        destruct (IH s1) as (c & Hc)
    end.
    + cbn [history]. rewrite !count_app. cbn. lia.
    + exists c. rewrite Hc. reflexivity.
Qed.

(** A sample world whose streaming endpoint refuses the first two
    dials. *)
Definition wsLateWorld : World :=
  Sample.world (payloadEnv "1") Sample.up
    (fun h => (2 <=? count is_NewGethClient h)%nat) Sample.up specBuilder.

Lemma connectWSClient_returns_witness :
  exists c,
    fst (connectWSClient wsLateWorld 3 "ws://geth:8546" (initial wsLateWorld))
    = Ret (Some c, None).
Proof.
  apply (connectWSClient_returns wsLateWorld "ws://geth:8546" 2).
  - intros h Hh. unfold wsLateWorld, Sample.world. cbn [newGethClient].
    destruct (Nat.leb_spec 2 (count is_NewGethClient h)); [eauto | lia].
  - cbn. lia.
Defined.

(** ** The loop and the timer *)

Lemma bind_returns {A B} (m : M A) (k : A -> M B) (s : State) (b : B) :
  fst (bind m k s) = Ret b ->
  exists a s', m s = (Ret a, s') /\ fst (k a s') = Ret b.
Proof.
  unfold bind. destruct (m s) as [[a|c|msg|] s']; cbn; try discriminate.
  eauto.
Qed.

(** X9.  The loop returns only on the timer: whatever the heads and the
    subscription errors, a run in which the timer does not fire is left
    waiting for events, unless it exits or panics. *)
Theorem mainLoop_returns_only_on_timer (W : World) (fuel : nat)
    (cfg : Config) :
  forall (events : list Event) (v : Vars) (s : State),
    (fst (mainLoop W fuel cfg v events s) = Ret Returned ->
     In TimerFired events) /\
    (fst (mainLoop W fuel cfg v events s) = Ret AwaitingEvents ->
     ~ In TimerFired events).
Proof.
  induction events as [|ev events IH]; intros v s.
  - cbn. split; [discriminate | tauto].
  - cbn [mainLoop]. split; intros H.
    + apply bind_returns in H. destruct H as (u & s1 & _ & H).
      destruct ev as [|e|header]; [left; reflexivity | |].
      * apply bind_returns in H. destruct H as (u1 & s2 & _ & H).
        apply bind_returns in H. destruct H as ([c sb] & s3 & _ & H).
        right. eapply IH. exact H.
      * apply bind_returns in H. destruct H as (v' & s2 & _ & H).
        right. eapply IH. exact H.
    + apply bind_returns in H. destruct H as (u & s1 & _ & H).
      destruct ev as [|e|header].
      * unfold logInfo, bind, emit, ret in H. cbn in H. discriminate H.
      * apply bind_returns in H. destruct H as (u1 & s2 & _ & H).
        apply bind_returns in H. destruct H as ([c sb] & s3 & _ & H).
        intros [Hin|Hin]; [discriminate Hin|].
        eapply IH; eauto.
      * apply bind_returns in H. destruct H as (v' & s2 & _ & H).
        intros [Hin|Hin]; [discriminate Hin|].
        eapply IH; eauto.
Qed.

(** ** At most one of each per head *)

Definition is_bid (e : Effect) : bool :=
  match e with SendBid _ => true | _ => false end.

Definition is_seed (e : Effect) : bool :=
  match e with RandSeed _ => true | _ => false end.

Definition is_bundle (e : Effect) : bool :=
  match e with SendBundle _ _ _ => true | _ => false end.

(** [within b sd u n d]: among the effects [d] there are at most [b] bids,
    [sd] seedings, [u] calls of the builder and [n] bundles. *)
Definition within (b sd u n : nat) (d : History) : Prop :=
  (count is_bid d <= b)%nat /\ (count is_seed d <= sd)%nat /\
  (count is_build d <= u)%nat /\ (count is_bundle d <= n)%nat.

(** Effects that are none of the four. *)
Definition quiet (e : Effect) : Prop :=
  is_bid e = false /\ is_seed e = false /\
  is_build e = false /\ is_bundle e = false.

Definition adds {A} (R : History -> Prop) (m : M A) : Prop :=
  forall s, exists d, history (snd (m s)) = history s ++ d /\ R d.

Lemma quiet_within (d : History) : Forall quiet d -> within 0 0 0 0 d.
Proof.
  intros F. repeat split; apply Nat.eq_le_incl, count_none;
    (eapply Forall_impl; [|exact F]); intros e (H1 & H2 & H3 & H4);
    assumption.
Qed.

Lemma within_weaken b sd u n b' sd' u' n' (d : History) :
  (b <= b')%nat -> (sd <= sd')%nat -> (u <= u')%nat -> (n <= n')%nat ->
  within b sd u n d -> within b' sd' u' n' d.
Proof. unfold within. lia. Qed.

Lemma adds_bind {A B} b1 sd1 u1 n1 b2 sd2 u2 n2 (m : M A) (k : A -> M B) :
  adds (within b1 sd1 u1 n1) m ->
  (forall a, adds (within b2 sd2 u2 n2) (k a)) ->
  adds (within (b1 + b2) (sd1 + sd2) (u1 + u2) (n1 + n2)) (bind m k).
Proof.
  intros Hm Hk s. unfold bind.
  destruct (Hm s) as (d1 & E1 & R1).
  destruct (m s) as [[a|c|msg|] s1] eqn:Em; cbn in E1;
    try solve [exists d1; cbn; split; [exact E1|];
               eapply within_weaken; [| | | |exact R1]; lia].
  destruct (Hk a s1) as (d2 & E2 & R2).
  exists (d1 ++ d2). rewrite E2, E1, app_assoc. split; [reflexivity|].
  destruct R1 as (A1 & A2 & A3 & A4). destruct R2 as (B1 & B2 & B3 & B4).
  unfold within. rewrite !count_app. lia.
Qed.

Lemma adds_quiet {A} (m : M A) : emits quiet m -> adds (within 0 0 0 0) m.
Proof.
  intros H s. destruct (H s) as (d & E & F). exists d. split; [exact E|].
  now apply quiet_within.
Qed.

Lemma adds_before {A B} b sd u n (m : M A) (k : A -> M B) :
  emits quiet m -> (forall a, adds (within b sd u n) (k a)) ->
  adds (within b sd u n) (bind m k).
Proof.
  intros Hm Hk.
  apply (adds_bind 0 0 0 0 b sd u n); [now apply adds_quiet | exact Hk].
Qed.

Lemma adds_after {A B} b sd u n (m : M A) (k : A -> M B) :
  adds (within b sd u n) m -> (forall a, emits quiet (k a)) ->
  adds (within b sd u n) (bind m k).
Proof.
  intros Hm Hk s.
  destruct (adds_bind b sd u n 0 0 0 0 m k Hm
              (fun a => adds_quiet (k a) (Hk a)) s) as (d & E & R).
  exists d. split; [exact E|].
  eapply within_weaken; [| | | |exact R]; lia.
Qed.

Lemma adds_weaken {A} b sd u n b' sd' u' n' (m : M A) :
  (b <= b')%nat -> (sd <= sd')%nat -> (u <= u')%nat -> (n <= n')%nat ->
  adds (within b sd u n) m -> adds (within b' sd' u' n') m.
Proof.
  intros H1 H2 H3 H4 H s. destruct (H s) as (d & E & R). exists d.
  split; [exact E|]. eapply within_weaken; eauto.
Qed.

(** One call of [sendPreconfBid]: one seeding, at most one bid. *)
Lemma sendPreconfBid_adds W input blockNumber :
  adds (within 1 1 0 0) (sendPreconfBid W input blockNumber).
Proof.
  intros s. destruct input as [v|[tx|]|].
  - rewrite sendPreconfBid_string. eexists. split; [reflexivity|].
    unfold submitted, preamble, bidLog, within. cbn.
    destruct (sendBid W _ _); cbn; repeat split; lia.
  - rewrite sendPreconfBid_payload. eexists. split; [reflexivity|].
    unfold submitted, preamble, bidLog, within. cbn.
    destruct (sendBid W _ _); cbn; repeat split; lia.
  - rewrite sendPreconfBid_nil. eexists. split; [reflexivity|].
    unfold preamble, within. cbn. repeat split; lia.
  - rewrite sendPreconfBid_other. eexists. split; [reflexivity|].
    unfold preamble, within. cbn. repeat split; lia.
Qed.

Ltac quiet_step :=
  first [ apply emits_emit; repeat split
        | apply emits_when, emits_emit; repeat split
        | apply emits_ret
        | apply emits_panic ].

Lemma bidTransaction_adds W cfg built :
  adds (within 1 1 0 1) (bidTransaction W cfg built).
Proof.
  destruct built as [[signedTx blockNumber] err1]. unfold bidTransaction.
  apply adds_before; [destruct signedTx; quiet_step | intros _].
  apply adds_before; [quiet_step | intros _].
  apply adds_before; [quiet_step | intros _].
  apply adds_after; [|intros err2; apply emits_bind;
                               [quiet_step | intros; quiet_step]].
  destruct (usePayload cfg).
  - apply adds_after; [|intros; quiet_step].
    eapply adds_weaken; [| | | |apply sendPreconfBid_adds]; lia.
  - apply (adds_bind 0 0 0 1 1 1 0 0).
    + intros s. unfold callExt, call, bind, ask, emit, ret, panic.
      cbn [fst snd history rng].
      destruct (sendBundle W (history s) (rpcEndpoint cfg) signedTx
                  blockNumber); cbn [fst snd history];
        exists [SendBundle (rpcEndpoint cfg) signedTx blockNumber];
        (split; [reflexivity|]); unfold within; cbn; repeat split; lia.
    + intros e. apply adds_before; [quiet_step | intros _].
      apply adds_before; [destruct signedTx; quiet_step | intros hash].
      apply adds_after; [apply sendPreconfBid_adds | intros; quiet_step].
Qed.

Lemma handleHeader_adds W cfg v header :
  adds (within 1 1 1 1) (handleHeader W cfg v header).
Proof.
  unfold handleHeader. apply (adds_bind 0 0 1 0 1 1 0 1).
  - unfold buildTransaction.
    destruct (String.eqb (ethTransfer cfg) "true");
      [|destruct (String.eqb (blob cfg) "true")].
    + intros s. unfold call, bind, ask, emit, ret. cbn [fst snd history].
      eexists. split; [reflexivity|]. unfold within. cbn. repeat split; lia.
    + intros s. unfold call, bind, ask, emit, ret. cbn [fst snd history].
      eexists. split; [reflexivity|]. unfold within. cbn. repeat split; lia.
    + eapply adds_weaken; [| | | |apply adds_quiet; quiet_step]; lia.
  - intros built. apply adds_after; [apply bidTransaction_adds|].
    intros; quiet_step.
Qed.

(** What the startup of [main] can add to the history before the loop,
    the dials of the RPC endpoint apart. *)
Definition startup_effect (e : Effect) : Prop :=
  match e with
  | GodotenvLoad | Log _ _ | AuthenticateAddress | NewBidderClient _
  | Sleep _ | NewGethClient _ | SubscribeNewHead _ | NewTimer _ => True
  | OsExit code => code = 1
  | _ => False
  end.

Lemma readConfiguration_emits_startup (W : World) :
  emits startup_effect (readConfiguration W).
Proof.
  intros s.
  unfold readConfiguration, parseBoolEnvVar,
    parseUintEnvVar, call, logCrit, osExit, when, bind, ask, emit, ret.
  cbn.
  repeat run_step.
  all: rewrite <- ?app_assoc; cbn; eexists; (split; [reflexivity|]).
  all: repeat constructor.
Qed.

Lemma logCrit_emits_startup (W : World) msg :
  emits startup_effect (logCrit msg).
Proof.
  unfold logCrit. apply emits_bind;
    [apply emits_emit; exact I | intros _; apply emits_osExit; reflexivity].
Qed.

Lemma connectWSClient_emits_startup W fuel ep :
  emits startup_effect (connectWSClient W fuel ep).
Proof.
  intros s. destruct (connectWSClient_spec W ep fuel s) as (d & E & F & _).
  exists d. split; [exact E|]. eapply Forall_impl; [|exact F].
  intros [[]| | | | | | | | | | | | | | | | |]; cbn; intros;
    try contradiction; auto.
Qed.

(** The startup after the configuration and before the loop, for any
    property [P] of effects that holds of the startup effects and of what
    the RPC step and the loop add. *)
Lemma main_emits (W : World) (fuel : nat) (events : list Event)
    (P : Effect -> Prop) :
  (forall e, startup_effect e -> P e) ->
  (forall env s, fst (readConfiguration W s) = Ret env ->
     emits P (connectRPC W (USE_PAYLOAD env) (RPC_ENDPOINT env) (30 * Second)) /\
     forall acct v,
       emits P (mainLoop W fuel
                  (mkConfig (USE_PAYLOAD env) (RPC_ENDPOINT env)
                     (WS_ENDPOINT env) (OFFSET env) (ETH_TRANSFER env)
                     (BLOB env) acct) v events)) ->
  forall s, exists d,
    history (snd (main W fuel events s)) = history s ++ d /\ Forall P d.
Proof.
  intros HP Hrest s. unfold main. unfold bind at 1.
  destruct (readConfiguration_emits_startup W s) as (d0 & E0 & F0).
  assert (G0 : Forall P d0) by (eapply Forall_impl; [|exact F0]; exact HP).
  destruct (readConfiguration W s) as [r s0] eqn:Er. cbn [fst snd] in E0.
  destruct r as [env|code|msg|]; try solve [exists d0; cbn; auto].
  destruct (Hrest env s) as (Hrpc & Hloop); [now rewrite Er|].
  assert (Hcrit : forall msg, emits P (logCrit msg)).
  { intros msg. eapply emits_weaken; [exact HP|].
    apply (logCrit_emits_startup W). }
  assert (Htail : emits P
    (logInfo "Configuration values" ;;
     x <- call (fun _ => authenticate W (PRIVATE_KEY env))
            AuthenticateAddress ;;
     (let '(authAcct0, err0) := x in
      when (notNil err0) (logCrit "Failed to authenticate private key:") ;;
      err1 <- call (fun h => newBidderClient W h (BIDDER_ADDRESS env))
                (NewBidderClient (BIDDER_ADDRESS env)) ;;
      when (notNil err1)
        (logCrit "failed to connect to mev-commit bidder API") ;;
      logInfo "connected to mev-commit client" ;;
      connectRPC W (USE_PAYLOAD env) (RPC_ENDPOINT env) (30 * Second) ;;
      x0 <- connectWSClient W fuel (WS_ENDPOINT env) ;;
      (let '(wsClient0, err2) := x0 in
       when (notNil err2) (logCrit "failed to connect to geth client") ;;
       logInfo "(ws) geth client connected" ;;
       r <- subscribe W wsClient0 ;;
       x1 <- match r with
             | inl sub0 => ret (Some sub0, None)
             | inr e =>
                 logCrit "failed to subscribe to new blocks" ;;
                 ret (None, Some e)
             end ;;
       (let '(sub0, err3) := x1 in
        emit (NewTimer (24 * 14 * Hour)) ;;
        mainLoop W fuel
          (mkConfig (USE_PAYLOAD env) (RPC_ENDPOINT env) (WS_ENDPOINT env)
             (OFFSET env) (ETH_TRANSFER env) (BLOB env) authAcct0)
          (mkVars wsClient0 sub0 err3) events))))).
  { apply emits_bind; [apply emits_emit, HP; exact I | intros _].
    apply emits_bind; [apply emits_call, HP; exact I | intros [acct e1]].
    apply emits_bind; [apply emits_when, Hcrit | intros _].
    apply emits_bind; [apply emits_call, HP; exact I | intros e2].
    apply emits_bind; [apply emits_when, Hcrit | intros _].
    apply emits_bind; [apply emits_emit, HP; exact I | intros _].
    apply emits_bind; [exact Hrpc | intros _].
    apply emits_bind.
    { eapply emits_weaken; [exact HP|]. apply connectWSClient_emits_startup. }
    intros [c e3].
    apply emits_bind; [apply emits_when, Hcrit | intros _].
    apply emits_bind; [apply emits_emit, HP; exact I | intros _].
    apply emits_bind.
    { unfold subscribe. destruct c;
        [apply emits_call, HP; exact I | apply emits_panic]. }
    intros r. apply emits_bind.
    { destruct r; [apply emits_ret|].
      apply emits_bind; [apply Hcrit | intros; apply emits_ret]. }
    intros [sb e4].
    apply emits_bind; [apply emits_emit, HP; exact I | intros _].
    apply Hloop. }
  destruct (Htail s0) as (d1 & E1 & F1).
  exists (d0 ++ d1). rewrite app_assoc, <- E0. split; [exact E1|].
  apply Forall_app. auto.
Qed.

Definition dial_effect (e : Effect) : Prop :=
  match e with
  | DialContext _ _ | Log _ _ | Sleep _ => True
  | _ => False
  end.

Lemma connectRPC_emits_dial W usePayload ep timeout :
  emits dial_effect (connectRPC W usePayload ep timeout).
Proof.
  intros s. destruct usePayload.
  - exists []. cbn. rewrite app_nil_r. auto.
  - rewrite connectRPC_dials.
    destruct (connectRPCLoop_spec W ep timeout 5 0 s)
      as (failed & d & E & F & _).
    assert (G : Forall dial_effect d).
    { eapply Forall_impl; [|exact F].
      intros [[]| | | | | | | | | | | | | | | | |]; cbn; intros;
        try contradiction; auto. }
    destruct (connectRPCLoop W 5 0 ep timeout s) as [[[c|]|code|msg|] s'];
      cbn [fst snd history] in *; rewrite E.
    + exists (d ++ [Log LvlInfo "(rpc) geth client connected"]).
      rewrite app_assoc. split; [reflexivity|].
      apply Forall_app. split; [exact G|]. repeat constructor.
    + exists (d ++ [Log LvlError "failed to connect to RPC client";
                    Log LvlInfo "(rpc) geth client connected"]).
      rewrite app_assoc. split; [reflexivity|].
      apply Forall_app. split; [exact G|]. repeat constructor.
    + exists d. auto.
    + exists d. auto.
    + exists d. auto.
Qed.

(** The heads among the events. *)
Definition heads (events : list Event) : nat :=
  List.length (filter (fun ev => match ev with
                                 | NewHeader _ => true
                                 | _ => false
                                 end) events).

Lemma startup_quiet (e : Effect) : startup_effect e -> quiet e.
Proof.
  destruct e as [[]| | | | | | | | | | | | | | | | |]; cbn; intros;
    try contradiction; repeat split.
Qed.

Lemma loop_quiet_reconnect W fuel ep :
  emits quiet (reconnectWSClient W fuel ep).
Proof.
  intros s. unfold reconnectWSClient.
  destruct (reconnectLoop_spec W fuel ep 10 s) as (d & E & F & _).
  exists d. split; [exact E|]. eapply Forall_impl; [|exact F].
  intros [[]| | | | | | | | | | | | | | | | |]; cbn; intros;
    try contradiction; repeat split.
Qed.

Lemma mainLoop_adds W fuel cfg :
  forall events v,
    adds (within (heads events) (heads events) (heads events) (heads events))
      (mainLoop W fuel cfg v events).
Proof.
  induction events as [|ev events IH]; intros v; cbn [mainLoop].
  - apply adds_quiet. quiet_step.
  - apply adds_before; [quiet_step | intros _].
    destruct ev as [|e|header]; unfold heads; cbn [filter List.length];
      fold (heads events).
    + eapply adds_weaken; [| | | |apply adds_quiet]; try lia.
      apply emits_bind; [quiet_step | intros; quiet_step].
    + apply adds_before; [quiet_step | intros _].
      apply adds_before; [apply loop_quiet_reconnect | intros [c sb]].
      apply IH.
    + apply (adds_bind 1 1 1 1 (heads events) (heads events) (heads events)
               (heads events)); [apply handleHeader_adds | intros v'].
      apply IH.
Qed.

(** X10.  In any run, whatever the world answers, at most one transaction is
    built, at most one bundle is relayed, the random source is seeded at
    most once and at most one bid is sent for each head the [select]
    delivers: no head is bid on twice, and none of this happens before the
    first head. *)
Theorem main_at_most_one_bid_per_head (W : World) (fuel : nat)
    (events : list Event) :
  (count is_bid (history (snd (main W fuel events (initial W))))
   <= heads events)%nat /\
  (count is_seed (history (snd (main W fuel events (initial W))))
   <= heads events)%nat /\
  (count is_build (history (snd (main W fuel events (initial W))))
   <= heads events)%nat /\
  (count is_bundle (history (snd (main W fuel events (initial W))))
   <= heads events)%nat.
Proof.
  assert (H : adds (within (heads events) (heads events) (heads events)
                      (heads events)) (main W fuel events)).
  { assert (Hcrit : forall msg, emits quiet (logCrit msg)).
    { intros msg. eapply emits_weaken; [exact startup_quiet|].
      apply (logCrit_emits_startup W). }
    unfold main.
    apply adds_before.
    { eapply emits_weaken; [exact startup_quiet|].
      apply readConfiguration_emits_startup. }
    intros env.
    apply adds_before; [quiet_step | intros _].
    apply adds_before; [apply emits_call; repeat split | intros [acct e1]].
    apply adds_before; [apply emits_when, Hcrit | intros _].
    apply adds_before; [apply emits_call; repeat split | intros e2].
    apply adds_before; [apply emits_when, Hcrit | intros _].
    apply adds_before; [quiet_step | intros _].
    apply adds_before.
    { eapply emits_weaken; [|apply connectRPC_emits_dial].
      intros [[]| | | | | | | | | | | | | | | | |]; cbn; intros;
        try contradiction; repeat split. }
    intros _.
    apply adds_before.
    { eapply emits_weaken; [exact startup_quiet|].
      apply connectWSClient_emits_startup. }
    intros [c e3].
    apply adds_before; [apply emits_when, Hcrit | intros _].
    apply adds_before; [quiet_step | intros _].
    apply adds_before.
    { unfold subscribe. destruct c;
        [apply emits_call; repeat split | apply emits_panic]. }
    intros r. apply adds_before.
    { destruct r; [apply emits_ret|].
      apply emits_bind; [apply Hcrit | intros; apply emits_ret]. }
    intros [sb e4].
    apply adds_before; [quiet_step | intros _].
    apply mainLoop_adds. }
  destruct (H (initial W)) as (d & E & R).
  rewrite E. cbn [history initial app]. exact R.
Qed.

(** ** Payload mode and relay mode *)

(** The reference a bid must carry for the input [sendPreconfBid] got. *)
Definition reference_of (input : Input) (r : Reference) : Prop :=
  match input with
  | InString v => r = HashReference [Strconv.TrimPrefix v "0x"]
  | InTransaction (Some tx) => r = PayloadReference [tx]
  | _ => False
  end.

Lemma sendPreconfBid_emits_reference (W : World) (P : Effect -> Prop)
    (input : Input) (blockNumber : Z) :
  P TimeNow -> (forall x, P (RandSeed x)) -> P RandFloat64 ->
  (forall msg, P (Log LvlInfo msg)) -> (forall msg, P (Log LvlWarn msg)) ->
  (forall b, reference_of input (bidReference b) -> P (SendBid b)) ->
  emits P (sendPreconfBid W input blockNumber).
Proof.
  intros Hnow Hseed Hdraw Hinfo Hwarn Hbid s.
  assert (Hlog : forall e, P (bidLog e)) by (intros [e|]; cbn; auto).
  destruct input as [v|[tx|]|].
  - rewrite sendPreconfBid_string. eexists. split; [reflexivity|].
    unfold submitted, preamble. cbn. repeat constructor; auto.
    apply Hbid. reflexivity.
  - rewrite sendPreconfBid_payload. eexists. split; [reflexivity|].
    unfold submitted, preamble. cbn. repeat constructor; auto.
    apply Hbid. reflexivity.
  - rewrite sendPreconfBid_nil. eexists. split; [reflexivity|].
    unfold preamble. repeat constructor; auto.
  - rewrite sendPreconfBid_other. eexists. split; [reflexivity|].
    unfold preamble. cbn. repeat constructor; auto.
Qed.

(** What a run adds in payload mode: no dial of the RPC endpoint, no
    bundle, and bids that carry one transaction. *)
Definition payload_effect (e : Effect) : Prop :=
  match e with
  | DialContext _ _ | SendBundle _ _ _ => False
  | SendBid b => exists tx, bidReference b = PayloadReference [tx]
  | _ => True
  end.

(** What a run adds in relay mode: bids that carry one hash. *)
Definition relay_effect (e : Effect) : Prop :=
  match e with
  | SendBid b => exists h, bidReference b = HashReference [h]
  | _ => True
  end.

Definition mode_effect (usePayload : bool) : Effect -> Prop :=
  if usePayload then payload_effect else relay_effect.

Lemma mode_effect_noise (usePayload : bool) (e : Effect) :
  is_bid e = false -> is_bundle e = false ->
  (match e with DialContext _ _ => False | _ => True end) ->
  mode_effect usePayload e.
Proof.
  destruct usePayload, e; cbn; intros; try discriminate; auto.
Qed.

Lemma handleHeader_emits_mode W cfg v header :
  emits (mode_effect (usePayload cfg)) (handleHeader W cfg v header).
Proof.
  assert (N : forall e, is_bid e = false -> is_bundle e = false ->
                match e with DialContext _ _ => False | _ => True end ->
                mode_effect (usePayload cfg) e)
    by apply mode_effect_noise.
  unfold handleHeader. apply emits_bind.
  - unfold buildTransaction.
    destruct (String.eqb (ethTransfer cfg) "true");
      [apply emits_call, N; auto|].
    destruct (String.eqb (blob cfg) "true");
      [apply emits_call, N; auto | apply emits_ret].
  - intros [[signedTx blockNumber] err1].
    apply emits_bind; [|intros; apply emits_ret].
    unfold bidTransaction.
    apply emits_bind;
      [destruct signedTx; apply emits_emit, N; auto | intros _].
    apply emits_bind; [apply emits_when, emits_emit, N; auto | intros _].
    apply emits_bind; [apply emits_emit, N; auto | intros _].
    apply emits_bind;
      [|intros err2; apply emits_bind; [|intros; apply emits_ret];
        apply emits_when, emits_emit, N; auto].
    destruct (usePayload cfg) eqn:Hp.
    + apply emits_bind; [|intros; apply emits_ret].
      apply sendPreconfBid_emits_reference; try (cbn; auto; fail).
      intros b Hb. cbn in *. destruct signedTx as [tx|]; [|contradiction].
      eauto.
    + apply emits_bind; [apply emits_callExt; exact I | intros e].
      apply emits_bind; [apply emits_when, emits_emit; exact I | intros _].
      apply emits_bind.
      * destruct signedTx; [apply emits_ret | apply emits_panic].
      * intros hash. apply emits_bind; [|intros; apply emits_ret].
        apply sendPreconfBid_emits_reference; try (cbn; auto; fail).
        intros b Hb. cbn in *. eauto.
Qed.

Lemma reconnectWSClient_emits_reconnect W fuel ep :
  emits (reconnect_effect ep) (reconnectWSClient W fuel ep).
Proof.
  intros s. unfold reconnectWSClient.
  destruct (reconnectLoop_spec W fuel ep 10 s) as (d & E & F & _).
  exists d. auto.
Qed.

Lemma mainLoop_emits_mode W fuel cfg :
  forall events v,
    emits (mode_effect (usePayload cfg)) (mainLoop W fuel cfg v events).
Proof.
  assert (N : forall e, is_bid e = false -> is_bundle e = false ->
                match e with DialContext _ _ => False | _ => True end ->
                mode_effect (usePayload cfg) e)
    by apply mode_effect_noise.
  induction events as [|ev events IH]; intros v; cbn [mainLoop].
  - apply emits_ret.
  - apply emits_bind; [apply emits_emit, N; auto | intros _].
    destruct ev as [|e|header].
    + apply emits_bind; [apply emits_emit, N; auto | intros _].
      apply emits_ret.
    + apply emits_bind; [apply emits_emit, N; auto | intros _].
      apply emits_bind.
      { eapply emits_weaken; [|apply reconnectWSClient_emits_reconnect].
        intros [[]| | | | | | | | | | | | | | | | |]; cbn; intros;
          try contradiction; apply N; auto. }
      intros [c sb]. apply IH.
    + apply emits_bind; [apply handleHeader_emits_mode|].
      intros v'. apply IH.
Qed.

(** The value of [usePayload] that [main] reads. *)
Definition usePayloadOf (W : World) : bool :=
  match Strconv.ParseBool (getenv W "USE_PAYLOAD") with
  | Some false => false
  | _ => true
  end.

Lemma readConfiguration_usePayload (W : World) (s : State)
    (env : Environment) :
  fst (readConfiguration W s) = Ret env -> USE_PAYLOAD env = usePayloadOf W.
Proof.
  unfold readConfiguration, usePayloadOf, parseBoolEnvVar,
    parseUintEnvVar, call, logCrit, osExit, when, bind, ask, emit, ret.
  cbn.
  repeat run_step.
  all: try discriminate.
  all: intros [= <-]; cbn [USE_PAYLOAD]; try reflexivity.
  all: eqb_only.
  all: match goal with
       | E : getenv _ "USE_PAYLOAD" = "" |- _ =>
           first [ rewrite E, ParseBool_empty; reflexivity
                 | match goal with
                   | H : Strconv.ParseBool _ = Some _ |- _ =>
                       rewrite E, ParseBool_empty in H; discriminate H
                   end ]
       end.
Qed.

Lemma main_emits_mode (W : World) (fuel : nat) (events : list Event) :
  Forall (mode_effect (usePayloadOf W))
    (history (snd (main W fuel events (initial W)))).
Proof.
  assert (N : forall e, is_bid e = false -> is_bundle e = false ->
                match e with DialContext _ _ => False | _ => True end ->
                mode_effect (usePayloadOf W) e)
    by apply mode_effect_noise.
  destruct (main_emits W fuel events (mode_effect (usePayloadOf W)))
    with (s := initial W) as (d & E & F).
  - intros [[]| | | | | | | | | | | | | | | | |]; cbn; intros;
      try contradiction; apply N; auto.
  - intros env s Hr.
    rewrite <- (readConfiguration_usePayload W s env Hr). split.
    + destruct (USE_PAYLOAD env).
      * intros s1. exists []. cbn. rewrite app_nil_r. auto.
      * eapply emits_weaken; [|apply connectRPC_emits_dial].
        intros [[]| | | | | | | | | | | | | | | | |]; cbn; intros;
          try contradiction; auto.
    + intros acct v.
      apply (mainLoop_emits_mode W fuel
               (mkConfig (USE_PAYLOAD env) (RPC_ENDPOINT env)
                  (WS_ENDPOINT env) (OFFSET env) (ETH_TRANSFER env)
                  (BLOB env) acct)).
  - rewrite E. exact F.
Qed.

(** X11.  The two submission paths do not mix.  Unless [USE_PAYLOAD] parses to
    false, a run never dials the RPC endpoint, never hands a bundle to the
    relay, and every bid it sends carries the transaction itself; when it
    parses to false every bid carries a hash. *)
Theorem main_submission_path (W : World) (fuel : nat)
    (events : list Event) :
  (Strconv.ParseBool (getenv W "USE_PAYLOAD") <> Some false ->
   Forall payload_effect (history (snd (main W fuel events (initial W))))) /\
  (Strconv.ParseBool (getenv W "USE_PAYLOAD") = Some false ->
   Forall relay_effect (history (snd (main W fuel events (initial W))))).
Proof.
  pose proof (main_emits_mode W fuel events) as H.
  unfold usePayloadOf in H.
  destruct (Strconv.ParseBool (getenv W "USE_PAYLOAD")) as [[|]|];
    split; intros Hp; try congruence; exact H.
Qed.

(** ** A bundle the relay rejects *)

Lemma bundles_of_app_l h1 h2 :
  bundles_of (h1 ++ h2) = bundles_of h1 ++ bundles_of h2.
Proof. unfold bundles_of. apply flat_map_app. Qed.

Lemma bundles_of_submitted W s intro b : bundles_of (submitted W s intro b) = [].
Proof.
  unfold submitted, preamble, bidLog. rewrite bundles_of_app_l. cbn.
  now destruct (sendBid W _ b).
Qed.

Definition relayFailedError : Effect :=
  Log LvlError "Failed to send transaction".

(** X12.  In relay mode the bid does not wait for the relay's verdict: when the
    builder signed a transaction and the relay answers every bundle with an
    error, the iteration logs the failure and still submits one bid, for the
    hash of that transaction without its "0x"; it returns with the relay's
    error in [err], so the loop goes on to the next head. *)
Theorem bid_follows_rejected_bundle (W : World) (cfg : Config) (v : Vars)
    (header : Header) (s : State) (tx : Transaction) :
  usePayload cfg = false ->
  mode_configured cfg = true ->
  fst (fst (builderAnswer W cfg v (history s))) = Some tx ->
  (forall h ep t n, exists e, sendBundle W h ep t n = Returns (Some e)) ->
  exists d b v',
    history (snd (handleHeader W cfg v header s)) = history s ++ d /\
    fst (handleHeader W cfg v header s) = Ret v' /\
    err v' <> None /\
    In relayFailedError d /\
    bundles_of d
      = [(Some tx, snd (fst (builderAnswer W cfg v (history s))))] /\
    bids_of d = [b] /\
    bidReference b = HashReference [Strconv.TrimPrefix (txHashHex tx) "0x"].
Proof.
  intros Hp Hmode Htx Hrelay.
  destruct (handleHeader W cfg v header s) as [r s'] eqn:Eh.
  unfold handleHeader in Eh. unfold bind at 1 in Eh.
  rewrite (buildTransaction_configured W cfg v s Hmode) in Eh.
  destruct (builderAnswer W cfg v (history s)) as [[signedTx blockNumber] err1].
  cbn in Htx. subst signedTx. cbn [fst snd].
  assert (Hcall : bundles_of [builderCall cfg v] = []
                  /\ bids_of [builderCall cfg v] = []).
  { unfold builderCall. now destruct (String.eqb (ethTransfer cfg) "true"). }
  destruct Hcall as [Hcall1 Hcall2].
  set (called := builderCall cfg v) in *.
  unfold bidTransaction in Eh. rewrite Hp in Eh.
  unfold callExt, call, hashString, logInfo, logError, when, bind, ask,
    emit, ret in Eh.
  destruct err1 as [e1|]; cbn in Eh;
    (match type of Eh with
     | context [sendBundle W ?h ?ep ?t ?n] =>
         destruct (Hrelay h ep t n) as (e & Hr); rewrite Hr in Eh
     end);
    cbn in Eh; rewrite sendPreconfBid_string in Eh; cbn in Eh;
    injection Eh as <- <-; cbn [history];
    rewrite <- ?app_assoc; cbn [app];
    eexists; eexists; eexists;
    (split; [reflexivity|]); (split; [reflexivity|]);
    (split; [discriminate|]);
    unfold relayFailedError;
    (split; [cbn; auto 10|]);
    rewrite !bundles_of_app_l, !bids_of_app, Hcall1, Hcall2,
      bids_of_submitted, bundles_of_submitted;
    (split; [reflexivity|]); split; reflexivity.
Qed.

(** A world like [W] whose relay answers every bundle with an error. *)
Definition rejectingRelay (W : World) : World :=
  {| dotenv := dotenv W;
     getenv := getenv W;
     authenticate := authenticate W;
     newBidderClient := newBidderClient W;
     dialContext := dialContext W;
     newGethClient := newGethClient W;
     subscribeNewHead := subscribeNewHead W;
     selfETHTransfer := selfETHTransfer W;
     executeBlobTransaction := executeBlobTransaction W;
     sendBundle := fun _ _ _ _ => Returns (Some "bundle rejected");
     sendBid := sendBid W;
     now := now W;
     seedState := seedState W;
     nextFloat64 := nextFloat64 W |}.

Definition relayConfig : Config :=
  mkConfig false "http://geth:8545" "ws://geth:8546" 1 "true" ""
    "0xe51D5d4C4A2b5A3A3e3F8F4E9d1A2b3C4d5E6f70".

Lemma bid_follows_rejected_bundle_witness :
  exists d b,
    history (snd (handleHeader (rejectingRelay (relayWorld "1")) relayConfig
                    sampleVars head100 atHead100))
      = history atHead100 ++ d /\
    In relayFailedError d /\
    bids_of d = [b] /\
    bidReference b
    = HashReference [Strconv.TrimPrefix (txHashHex Sample.tx) "0x"].
Proof.
  destruct (bid_follows_rejected_bundle (rejectingRelay (relayWorld "1"))
              relayConfig sampleVars head100 atHead100 Sample.tx)
    as (d & b & v' & E & _ & _ & L & _ & B & R).
  - reflexivity.
  - reflexivity.
  - reflexivity.
  - intros h ep t n. eexists. reflexivity.
  - exists d, b. auto.
Defined.

(** * [internal/logging/logging.go] *)

Module Logging.

(** [slog.Level] is an integer. *)
Definition LevelDebug : Z := -4.
Definition LevelInfo : Z := 0.
Definition LevelWarn : Z := 4.
Definition LevelError : Z := 8.

Definition is_lower (c : ascii) : bool :=
  (97 <=? nat_of_ascii c)%nat && (nat_of_ascii c <=? 122)%nat.

Definition is_upper (c : ascii) : bool :=
  (65 <=? nat_of_ascii c)%nat && (nat_of_ascii c <=? 90)%nat.

Definition upper (c : ascii) : ascii :=
  if is_lower c then ascii_of_nat (nat_of_ascii c - 32) else c.

(** [strings.ToUpper] on a string of ASCII bytes, where it maps byte by
    byte. *)
Fixpoint ToUpper (s : string) : string :=
  match s with
  | EmptyString => EmptyString
  | String c s' => String (upper c) (ToUpper s')
  end.

Fixpoint ascii_only (s : string) : bool :=
  match s with
  | EmptyString => true
  | String c s' => (nat_of_ascii c <? 128)%nat && ascii_only s'
  end.

Definition ParseLogLevel (levelStr : string) : Z :=
  let u := ToUpper levelStr in
  if String.eqb u "DEBUG" then LevelDebug
  else if String.eqb u "INFO" then LevelInfo
  else if String.eqb u "WARN" then LevelWarn
  else if String.eqb u "ERROR" then LevelError
  else LevelInfo.

(** [strings.EqualFold] on ASCII bytes: equal, or the same letter in the
    two cases. *)
Definition equal_fold_byte (a b : ascii) : bool :=
  Ascii.eqb a b
  || (is_lower a && (nat_of_ascii b =? nat_of_ascii a - 32)%nat)
  || (is_lower b && (nat_of_ascii a =? nat_of_ascii b - 32)%nat).

Fixpoint EqualFold (s t : string) : bool :=
  match s, t with
  | EmptyString, EmptyString => true
  | String a s', String b t' => equal_fold_byte a b && EqualFold s' t'
  | _, _ => false
  end.

Record HandlerOptions := mkHandlerOptions {
  optLevel : Z;
  optAddSource : bool
}.

(** [lumberjack.Logger]. *)
Record Rotation := mkRotation {
  Filename : string;
  MaxSize : Z;
  MaxBackups : Z;
  MaxAge : Z;
  Compress : bool
}.

(** The handler of the logger that [InitializeLogger] returns. *)
Inductive Handler :=
| ColoredText (opts : HandlerOptions)
| JSONFile (file : Rotation) (opts : HandlerOptions).

Definition handlerOptions (h : Handler) : HandlerOptions :=
  match h with
  | ColoredText opts => opts
  | JSONFile _ opts => opts
  end.

(** [InitializeLogger], given the environment and what [isatty] answers
    for the standard output. *)
Definition InitializeLogger (getenv : string -> string)
    (isTerm isCygwinTerm : bool) (pretty : bool) : Handler :=
  let isTerminal := isTerm || isCygwinTerm in
  let logLevelStr :=
    if String.eqb (getenv "LOG_LEVEL") "" then "INFO"
    else getenv "LOG_LEVEL" in
  let logLevel := ParseLogLevel logLevelStr in
  if pretty && isTerminal then
    ColoredText (mkHandlerOptions logLevel true)
  else
    let logFilePath :=
      if String.eqb (getenv "LOG_FILE") "" then "app_datadog.log"
      else getenv "LOG_FILE" in
    JSONFile (mkRotation logFilePath 1000 3 28 true)
      (mkHandlerOptions logLevel true).

Lemma upper_of_upper (c : ascii) : is_upper c = true -> upper c = c.
Proof.
  unfold is_upper, upper, is_lower. intros H.
  apply andb_true_iff in H. destruct H as [H1 H2].
  apply Nat.leb_le in H1, H2.
  destruct (Nat.leb_spec 97 (nat_of_ascii c)); [lia | reflexivity].
Qed.

Lemma lower_to_upper (a b : ascii) :
  is_lower a = true -> nat_of_ascii b = (nat_of_ascii a - 32)%nat ->
  upper a = b /\ upper b = b.
Proof.
  intros Ha Hb. pose proof Ha as Ha'.
  unfold is_lower in Ha'. apply andb_true_iff in Ha'.
  destruct Ha' as [H1 H2]. apply Nat.leb_le in H1, H2.
  assert (Hu : upper a = b).
  { unfold upper. rewrite Ha, <- Hb. apply ascii_nat_embedding. }
  split; [exact Hu|]. apply upper_of_upper. unfold is_upper.
  apply andb_true_iff. split; apply Nat.leb_le; lia.
Qed.

Lemma equal_fold_byte_upper (a b : ascii) :
  equal_fold_byte a b = true -> upper a = upper b.
Proof.
  unfold equal_fold_byte. intros H.
  apply orb_true_iff in H. destruct H as [H|H];
    [apply orb_true_iff in H; destruct H as [H|H]|].
  - apply Ascii.eqb_eq in H. now subst.
  - apply andb_true_iff in H. destruct H as [Ha Hb].
    apply Nat.eqb_eq in Hb.
    destruct (lower_to_upper a b Ha Hb) as [-> ->]. reflexivity.
  - apply andb_true_iff in H. destruct H as [Hb Ha].
    apply Nat.eqb_eq in Ha.
    destruct (lower_to_upper b a Hb Ha) as [-> ->]. reflexivity.
Qed.

Lemma EqualFold_ToUpper (s t : string) :
  EqualFold s t = true -> ToUpper s = ToUpper t.
Proof.
  revert t. induction s as [|a s IH]; intros [|b t] H; cbn in *;
    try discriminate; [reflexivity|].
  apply andb_true_iff in H. destruct H as [H1 H2].
  now rewrite (equal_fold_byte_upper a b H1), (IH t H2).
Qed.

(** X13.  The level does not depend on the case of the letters: two ASCII
    strings that differ only in case give the same level. *)
Theorem ParseLogLevel_ignores_case (s t : string) :
  ascii_only s = true -> ascii_only t = true ->
  EqualFold s t = true ->
  ParseLogLevel s = ParseLogLevel t.
Proof.
  intros _ _ H. unfold ParseLogLevel. now rewrite (EqualFold_ToUpper s t H).
Qed.

Lemma ParseLogLevel_ignores_case_witness :
  ParseLogLevel "debug" = ParseLogLevel "DeBuG".
Proof.
  apply ParseLogLevel_ignores_case; reflexivity.
Defined.

(** X14.  The logger's level is the level of [LOG_LEVEL] whatever the handler:
    the default put in place of an empty [LOG_LEVEL] changes nothing, since
    the empty string already gives Info, and the level is one of the four.
    The handler is the coloured one exactly when [pretty] is set and the
    output is a terminal; otherwise it is the JSON file, whose name is never
    empty: [LOG_FILE], or ["app_datadog.log"] when that is empty. *)
Theorem InitializeLogger_level (getenv : string -> string)
    (isTerm isCygwinTerm pretty : bool) :
  let h := InitializeLogger getenv isTerm isCygwinTerm pretty in
  optLevel (handlerOptions h) = ParseLogLevel (getenv "LOG_LEVEL") /\
  In (optLevel (handlerOptions h))
     [LevelDebug; LevelInfo; LevelWarn; LevelError] /\
  ((exists opts, h = ColoredText opts) <->
   pretty = true /\ (isTerm = true \/ isCygwinTerm = true)) /\
  (forall file opts, h = JSONFile file opts ->
     Filename file <> "" /\
     (getenv "LOG_FILE" <> "" -> Filename file = getenv "LOG_FILE")).
Proof.
  cbv zeta.
  assert (Hlevel :
    ParseLogLevel (if String.eqb (getenv "LOG_LEVEL") "" then "INFO"
                   else getenv "LOG_LEVEL")
    = ParseLogLevel (getenv "LOG_LEVEL")).
  { destruct (String.eqb_spec (getenv "LOG_LEVEL") "") as [->|]; reflexivity. }
  assert (Hrange : forall x,
    In (ParseLogLevel x) [LevelDebug; LevelInfo; LevelWarn; LevelError]).
  { intros x. unfold ParseLogLevel.
    repeat match goal with
           | |- context [String.eqb ?a ?b] => destruct (String.eqb a b)
           end; cbn; auto. }
  unfold InitializeLogger.
  destruct pretty, isTerm, isCygwinTerm; cbn [andb orb handlerOptions optLevel].
  all: rewrite Hlevel.
  all: split; [reflexivity|]; split; [apply Hrange|]; split.
  all: try (split; [intros [opts H]; first [discriminate H | auto]
                   | intros [H1 [H2|H2]]; first [discriminate | eauto]]).
  all: intros file opts H; try discriminate H; injection H as <- <-;
    cbn [Filename].
  all: destruct (String.eqb_spec (getenv "LOG_FILE") "");
    split; congruence.
Qed.

End Logging.

(** * Every head is bid on *)

(** The builder signs a transaction whenever it is called. *)
Definition builder_always_signs (W : World) : Prop :=
  forall h c a x o,
    (exists tx n e, selfETHTransfer W h c a x o = (Some tx, n, e)) /\
    (exists tx n e, executeBlobTransaction W h c a x o = (Some tx, n, e)).

Lemma handleHeader_payload_signed (W : World) (cfg : Config) (v : Vars)
    (header : Header) (s : State) :
  usePayload cfg = true -> mode_configured cfg = true ->
  builder_always_signs W ->
  exists v' s' d,
    handleHeader W cfg v header s = (Ret v', s') /\
    history s' = history s ++ d /\
    List.length (bids_of d) = 1%nat.
Proof.
  intros Hp Hmode Hsigns.
  destruct (handleHeader W cfg v header s) as [r s'] eqn:Eh.
  unfold handleHeader in Eh. unfold bind at 1 in Eh.
  rewrite (buildTransaction_configured W cfg v s Hmode) in Eh.
  assert (Hcall : bids_of [builderCall cfg v] = []).
  { unfold builderCall. now destruct (String.eqb (ethTransfer cfg) "true"). }
  assert (Hbuilt : exists tx n e,
             builderAnswer W cfg v (history s) = (Some tx, n, e)).
  { unfold builderAnswer.
    destruct (String.eqb (ethTransfer cfg) "true"); apply Hsigns. }
  destruct Hbuilt as (tx & n & e & Hb). rewrite Hb in Eh.
  set (called := builderCall cfg v) in *.
  unfold bidTransaction in Eh. rewrite Hp in Eh.
  unfold logInfo, logError, when, bind, emit, ret in Eh.
  destruct e as [e|]; cbn in Eh;
    rewrite sendPreconfBid_payload in Eh; cbn in Eh;
    injection Eh as <- <-; cbn [history];
    rewrite <- ?app_assoc;
    eexists; eexists; eexists;
    (split; [reflexivity|]); (split; [reflexivity|]);
    rewrite !bids_of_app, Hcall, bids_of_submitted; reflexivity.
Qed.

(** X15.  In payload mode, with a mode configured and a builder that signs,
    every head gets exactly one bid, whatever the bidder service answers:
    its errors are logged and the loop waits for the next head. *)
Theorem every_head_gets_a_bid (W : World) (fuel : nat) (cfg : Config) :
  usePayload cfg = true -> mode_configured cfg = true ->
  builder_always_signs W ->
  forall (hs : list Header) (v : Vars) (s : State),
  exists d,
    fst (mainLoop W fuel cfg v (map NewHeader hs) s) = Ret AwaitingEvents /\
    history (snd (mainLoop W fuel cfg v (map NewHeader hs) s))
      = history s ++ d /\
    List.length (bids_of d) = List.length hs.
Proof.
  intros Hp Hmode Hsigns. induction hs as [|h hs IH]; intros v s.
  - exists []. cbn. rewrite app_nil_r. auto.
  - set (s1 := mkState (history s ++ [Select (NewHeader h)]) (rng s)).
    destruct (handleHeader_payload_signed W cfg v h s1 Hp Hmode Hsigns)
      as (v' & s2 & d1 & Eh & E1 & B1).
    assert (Hstep : mainLoop W fuel cfg v (map NewHeader (h :: hs)) s
                    = mainLoop W fuel cfg v' (map NewHeader hs) s2).
    { cbn [map mainLoop]. unfold bind, emit. fold s1. rewrite Eh.
      reflexivity. }
    rewrite Hstep.
    destruct (IH v' s2) as (d2 & R2 & E2 & B2).
    exists ([Select (NewHeader h)] ++ d1 ++ d2).
    split; [exact R2|]. split.
    + rewrite E2, E1. unfold s1. cbn [history].
      rewrite <- !app_assoc. reflexivity.
    + rewrite !bids_of_app, !length_app, B1, B2. reflexivity.
Qed.

Lemma every_head_gets_a_bid_witness :
  exists d,
    fst (mainLoop (payloadWorld "1") 3 sampleConfig sampleVars
           (map NewHeader [head100; head101]) atHead100)
    = Ret AwaitingEvents /\
    history (snd (mainLoop (payloadWorld "1") 3 sampleConfig sampleVars
                    (map NewHeader [head100; head101]) atHead100))
    = history atHead100 ++ d /\
    List.length (bids_of d) = 2%nat.
Proof.
  apply (every_head_gets_a_bid (payloadWorld "1") 3 sampleConfig).
  - reflexivity.
  - reflexivity.
  - intros h c a x o. split; eexists; eexists; eexists; reflexivity.
Defined.
